(** * The table-frame engine of the Streamlit frontend

    A shallow embedding of [frontend/src/lib/arrowProto.ts] (parsing,
    concatenation, comparison) and of [frontend/src/lib/Quiver.ts]
    (dimensions and cell addressing), with the properties the
    specification states about them.

    Conventions of the embedding.
    - A raw cell value (TypeScript [any]) is a [Value].  Numbers are the
      integer-valued ones ([Z]); [VNaN] is the result of arithmetic on
      [undefined].  Doubles that are not integers, and integers beyond
      the exactly representable range, are outside the model.
    - A JavaScript object used as a record of fields ([IndexType.meta])
      is a finite map from field names to values; [None] is [null] or
      [undefined].
    - A function that can [throw] returns a [result]; [try]/[catch] is
      [try_catch].
    - The functions are embedded by the value they return.  The arrays
      and objects that [concatRangeIndex] and [concatAnyIndex] update in
      place are returned as new values; two index levels of a frame are
      taken not to share their type object.
    - Grid coordinates are integers.
    - What the runtime and the libraries provide ([Intl.Collator],
      [JSON.parse], the Arrow reader, the formatting routine of
      [src/lib/format]) is a section variable of the functions that use
      it. *)

From Stdlib Require Import ZArith String Ascii List Bool Lia DecimalString.
From stdpp Require Import base option gmap strings list fin_maps sorting.

Local Open Scope string_scope.
Local Open Scope Z_scope.
Local Open Scope list_scope.

(** ** Raw values *)

Inductive Value :=
| VNum (n : Z)
| VNaN
| VStr (s : string)
| VNull
| VUndefined.

#[global] Instance Value_eq_dec : EqDecision Value.
Proof. solve_decision. Defined.

(** Decimal rendering of an integer-valued number, as [String(n)]. *)
Definition string_of_Z (n : Z) : string :=
  NilZero.string_of_int (Z.to_int n).

(** [ToString] of the language, on raw values. *)
Definition ToString (v : Value) : string :=
  match v with
  | VNum n => string_of_Z n
  | VNaN => "NaN"
  | VStr s => s
  | VNull => "null"
  | VUndefined => "undefined"
  end.

(** [ToNumber] on the values that are not strings; [None] is NaN. *)
Definition ToNumber (v : Value) : option Z :=
  match v with
  | VNum n => Some n
  | VNull => Some 0
  | VNaN | VUndefined | VStr _ => None
  end.

(** The [+] operator: concatenation as soon as one operand is a string,
    numeric addition otherwise. *)
Definition js_add (a b : Value) : Value :=
  match a, b with
  | VStr s, _ => VStr (s +:+ ToString b)
  | _, VStr s => VStr (ToString a +:+ s)
  | _, _ =>
      match ToNumber a, ToNumber b with
      | Some x, Some y => VNum (x + y)
      | _, _ => VNaN
      end
  end.

(** A JavaScript object seen as a record of fields. *)
Abbreviation JsObject := (gmap string Value).

(** Property read [o.f]: [undefined] when the field is absent. *)
Definition field (o : JsObject) (f : string) : Value :=
  default VUndefined (o !! f).

(** ** The frame *)

Record IndexType := mkIndexType {
  name : option string;       (* [undefined] when the schema has no such column *)
  meta : option JsObject;
}.

Module Index.
Record t := mk {
  data : list (list Value);
  type : list IndexType;
}.
End Index.

Module IndexData.
Record t := mk {
  data : list Value;
  type : IndexType;
}.
End IndexData.

Abbreviation Columns := (list (list Value)).

Module Data.
Record t := mk {
  data : list (list Value);
  type : list string;
}.
End Data.

Inductive Quiver := mkQuiver {
  index : Index.t;
  columns : Columns;
  data : Data.t;
  styler : option Styler;
}
with Styler := mkStyler {
  uuid : option string;
  caption : option string;
  styles : option string;
  displayValues : option Quiver;
}.

(** [interface DataFrame] has the four fields of the class. *)
Abbreviation DataFrame := Quiver.

(** [new Quiver(df)] copies the four fields. *)
Definition Quiver_new (df : DataFrame) : Quiver :=
  mkQuiver (index df) (columns df) (data df) (styler df).

(** ** Exceptions *)

Inductive ErrName := ErrorName | TypeErrorName | SyntaxErrorName.

Inductive Message :=
| MsgStyler                      (* Cannot concatenate dataframes with styler. *)
| MsgIndexType (first second : list IndexType)
                                 (* Cannot concatenate index type .. with .. *)
| MsgDataType (first second : list string)
                                 (* Cannot concatenate data type .. with .. *)
| MsgSchemaMissing               (* Table schema is missing. *)
| MsgDimensions (dataRows dataRowsCheck dataColumns dataColumnsCheck : nat)
                                 (* Dataframe dimensions don't align: .. *)
| MsgRowOutOfRange               (* Row index is out of range. *)
| MsgColumnOutOfRange            (* Column index is out of range. *)
| MsgEngine                      (* text chosen by the JavaScript engine *)
| MsgStringOf (n : ErrName) (m : Message).
                                 (* [String(e)], that is <name>: <message> *)

Record JsError := mkError {
  err_name : ErrName;
  err_message : Message;
}.

(** [new Error(msg)] *)
Definition Error (m : Message) : JsError := mkError ErrorName m.

(** What the engine raises on a property read from [undefined] or [null]. *)
Definition typeError : JsError := mkError TypeErrorName MsgEngine.

Inductive result (A : Type) :=
| Ok (a : A)
| Throw (e : JsError).
Arguments Ok {A} a.
Arguments Throw {A} e.

#[global] Instance result_ret : MRet result := fun _ a => Ok a.
#[global] Instance result_bind : MBind result := fun _ _ f c =>
  match c with
  | Ok a => f a
  | Throw e => Throw e
  end.

(** [try { body } catch (e) { throw handler(e) }] *)
Definition try_catch {A} (body : result A) (handler : JsError -> JsError)
  : result A :=
  match body with
  | Ok a => Ok a
  | Throw e => Throw (handler e)
  end.

(** Truthiness of an optional object: an object is truthy, [undefined]
    is not. *)
Definition truthy {A} (o : option A) : bool :=
  match o with
  | Some _ => true
  | None => false
  end.

(** ** Array helpers *)

(** [array.every((x, i) => p(x, i))], from position [i]. *)
Fixpoint every_from {A} (i : nat) (p : A -> nat -> bool) (l : list A) : bool :=
  match l with
  | [] => true
  | x :: l' => p x i && every_from (S i) p l'
  end.

Definition every {A} (p : A -> nat -> bool) (l : list A) : bool :=
  every_from 0 p l.

(** [array.reduce((acc, x, i) => f(acc, x, i), init)] with a callback
    that can throw. *)
Fixpoint reduce_from {A B} (i : nat) (f : B -> A -> nat -> result B)
    (l : list A) (acc : B) : result B :=
  match l with
  | [] => Ok acc
  | x :: l' => acc' ← f acc x i; reduce_from (S i) f l' acc'
  end.

Definition reduce {A B} (f : B -> A -> nat -> result B) (l : list A)
    (init : B) : result B :=
  reduce_from 0 f l init.

(** ** Frame Concatenator ([arrowProto.ts]) *)

(** The name of [IndexTypes.RangeIndex] and of
    [IndexTypes.CategoricalIndex]. *)
Definition RangeIndexName : string := "range".
Definition CategoricalIndexName : string := "categorical".

Definition isEmptyDf (df : Quiver) : result bool :=
  if negb (length (Data.data (data df)) =? 0)%nat then Ok false
  else
    match Index.data (index df) !! 0%nat with
    | None => Throw typeError
    | Some level0 =>
        Ok ((length level0 =? 0)%nat && (length (columns df) =? 0)%nat)
    end.

(** One turn of the [reduce] callback of [concatRangeIndex]: the state is
    the accumulated data, the local [newStop] and the fields of
    [indexType.meta]. *)
Definition rangeStep (st : list Value * Value * JsObject) (_ : Value)
  : list Value * Value * JsObject :=
  let '(d, newStop, m) := st in
  let newStop' := js_add newStop (field m "step") in
  (d ++ [newStop], newStop', <["stop" := newStop']> m).

Definition concatRangeIndex (firstIndex : list Value)
    (secondIndex : option (list Value)) (indexType : IndexType)
  : result IndexData.t :=
  match meta indexType with
  | None => Throw typeError
  | Some m =>
      let newStop := field m "stop" in
      match secondIndex with
      | None => Throw typeError
      | Some second =>
          let '(d, _, m') := fold_left rangeStep second (firstIndex, newStop, m) in
          Ok (IndexData.mk d (mkIndexType (name indexType) (Some m')))
      end
  end.

Definition concatAnyIndex (firstIndex : list Value)
    (secondIndex : option (list Value)) (indexType : IndexType)
  : result IndexData.t :=
  let concatenatedIndex :=
    firstIndex ++ match secondIndex with
                  | Some second => second
                  | None => [VUndefined]
                  end in
  if bool_decide (name indexType = Some CategoricalIndexName) then
    match meta indexType, secondIndex with
    | Some m, Some second =>
        let n := js_add (field m "num_categories")
                        (VNum (Z.of_nat (length second))) in
        Ok (IndexData.mk concatenatedIndex
              (mkIndexType (name indexType) (Some (<["num_categories" := n]> m))))
    | _, _ => Throw typeError
    end
  else Ok (IndexData.mk concatenatedIndex indexType).

Definition concatIndex (firstIndex : list Value)
    (secondIndex : option (list Value)) (indexType : option IndexType)
  : result IndexData.t :=
  match indexType with
  | None => Throw typeError
  | Some t =>
      if bool_decide (name t = Some RangeIndexName)
      then concatRangeIndex firstIndex secondIndex t
      else concatAnyIndex firstIndex secondIndex t
  end.

(** In [sameIndexTypes] the two lists have the same length when [every]
    runs, so [secondType[index]] is always there. *)
Definition sameIndexTypes (firstType secondType : list IndexType) : bool :=
  if negb (length firstType =? length secondType)%nat then false
  else
    every (fun firstTypeValue index =>
             match secondType !! index with
             | Some t => bool_decide (name firstTypeValue = name t)
             | None => false
             end) firstType.

Definition sameDataColumnTypes (firstType secondType : list string) : bool :=
  every (fun firstTypeValue index =>
           bool_decide (secondType !! index = Some firstTypeValue)) firstType.

Definition concatIndices (firstIndices secondIndices : Index.t)
  : result Index.t :=
  match Index.data firstIndices !! 0%nat with
  | None => Throw typeError
  | Some level0 =>
      if (length level0 =? 0)%nat then Ok secondIndices
      else if negb (sameIndexTypes (Index.type firstIndices)
                                   (Index.type secondIndices))
      then Throw (Error (MsgIndexType (Index.type firstIndices)
                                      (Index.type secondIndices)))
      else
        reduce (fun newIndex firstIndexData index =>
                  concatenatedIndex ←
                    concatIndex firstIndexData
                                (Index.data secondIndices !! index)
                                (Index.type firstIndices !! index);
                  Ok (Index.mk
                        (Index.data newIndex ++ [IndexData.data concatenatedIndex])
                        (Index.type newIndex ++ [IndexData.type concatenatedIndex])))
               (Index.data firstIndices)
               (Index.mk [] [])
  end.

Definition concatData (firstData secondData : Data.t) : result Data.t :=
  if negb (sameDataColumnTypes (Data.type firstData) (Data.type secondData))
  then Throw (Error (MsgDataType (Data.type firstData) (Data.type secondData)))
  else
    let numberOfColumns := length (Data.type firstData) in
    Ok (Data.mk
          (Data.data firstData
             ++ map (fun row => take numberOfColumns row) (Data.data secondData))
          (Data.type firstData)).

Definition concatTables (df1 df2 : Quiver) : result Quiver :=
  if truthy (styler df1) || truthy (styler df2)
  then Throw (Error MsgStyler)
  else
    empty1 ← isEmptyDf df1;
    if (empty1 : bool) then Ok df2
    else
      empty2 ← isEmptyDf df2;
      if (empty2 : bool) then Ok df1
      else
        try_catch
          (index ← concatIndices (index df1) (index df2);
           data ← concatData (data df1) (data df2);
           Ok (Quiver_new (mkQuiver index (columns df1) data None)))
          (fun e => Error (err_message e)).

(** ** Frames used in the examples *)

(** The object a synthetic range descriptor of the schema denotes. *)
Definition rangeMeta (start step stop : Z) : JsObject :=
  {[ "kind" := VStr "range"; "name" := VNull; "start" := VNum start;
     "step" := VNum step; "stop" := VNum stop ]}.

Definition rangeType (start step stop : Z) : IndexType :=
  mkIndexType (Some RangeIndexName) (Some (rangeMeta start step stop)).

(** A frame with one range index level, one column label per entry of
    [labels], and the given body. *)
Definition rangeFrame (start step stop : Z) (level : list Z)
    (labels : list string) (rows : list (list Value)) (types : list string)
  : Quiver :=
  mkQuiver (Index.mk [map VNum level] [rangeType start step stop])
           (match labels with [] => [] | _ => [map VStr labels] end)
           (Data.mk rows types) None.

(** A frame counts as non-empty when the emptiness test of
    [concatTables] answers no. *)
Definition non_empty (df : Quiver) : Prop := isEmptyDf df = Ok false.

(** The arithmetic progression of [n] values from [stop] by [step]. *)
Definition progression (stop step : Z) (n : nat) : list Value :=
  map (fun i => VNum (stop + Z.of_nat i * step)) (seq 0 n).


(** ** Table Model: dimensions and cell addressing ([Quiver.ts]) *)

Module TableDimensions.
Record t := mk {
  headerRows : nat;
  headerColumns : nat;
  dataRows : nat;
  dataColumns : nat;
  rows : nat;
  columns : nat;
}.
End TableDimensions.

Module TableCellType.
Inductive t := blank | index | columns | data.
End TableCellType.

Module TableCell.
Record t := mk {
  type : TableCellType.t;
  id : option string;
  classNames : string;
  content : Value;
}.
End TableCell.

(** The three pairs that the getter [dimensions] destructures. *)
Definition indexShape (q : Quiver) : nat * nat :=
  match Index.data (index q) with
  | [] => (0, 0)%nat
  | level0 :: _ => (length (Index.data (index q)), length level0)
  end.

Definition columnsShape (q : Quiver) : nat * nat :=
  match columns q with
  | [] => (1, 0)%nat
  | labels0 :: _ => (length (columns q), length labels0)
  end.

Definition dataShape (q : Quiver) (dataColumnsCheck : nat) : nat * nat :=
  match Data.data (data q) with
  | [] => (0%nat, dataColumnsCheck)
  | row0 :: _ => (length (Data.data (data q)), length row0)
  end.

Definition dimensions (q : Quiver) : result TableDimensions.t :=
  let '(headerColumns, dataRowsCheck) := indexShape q in
  let '(headerRows, dataColumnsCheck) := columnsShape q in
  let '(dataRows, dataColumns) := dataShape q dataColumnsCheck in
  if (negb (dataRows =? 0)%nat && negb (dataRows =? dataRowsCheck)%nat)
     || (negb (dataColumns =? 0)%nat && negb (dataColumns =? dataColumnsCheck)%nat)
  then Throw (Error (MsgDimensions dataRows dataRowsCheck
                                   dataColumns dataColumnsCheck))
  else
    let rows := (headerRows + dataRows)%nat in
    let columns := (headerColumns + dataColumns)%nat in
    Ok (TableDimensions.mk headerRows headerColumns dataRows dataColumns
                           rows columns).

(** [array.join(" ")] *)
Definition join (sep : string) (l : list string) : string :=
  String.concat sep l.

(** Truthiness of an optional string: [undefined] and the empty string
    are falsy. *)
Definition truthy_string (s : option string) : bool :=
  match s with
  | Some (String _ _) => true
  | _ => false
  end.

(** [array[i]] at an integer position: [undefined] outside. *)
Definition at_index {A} (l : list A) (i : Z) : option A :=
  if i <? 0 then None else l !! Z.to_nat i.

(** [row[i]] for a row of raw values. *)
Definition value_at (row : list Value) (i : Z) : Value :=
  default VUndefined (at_index row i).

Section CellAddressing.

(** The formatting routine of [src/lib/format], which is not part of the
    table model: it receives the raw value and the type tag (either can
    be [undefined]) and returns the display string. *)
Variable betaToFormattedString : Value -> option string -> string.

Fixpoint getCell (q : Quiver) (rowIndex columnIndex : Z) {struct q}
  : result TableCell.t :=
  match dimensions q with
  | Throw e => Throw e
  | Ok d =>
    let headerRows := Z.of_nat (TableDimensions.headerRows d) in
    let headerColumns := Z.of_nat (TableDimensions.headerColumns d) in
    let rows := Z.of_nat (TableDimensions.rows d) in
    let columns_ := Z.of_nat (TableDimensions.columns d) in
    if (rowIndex <? 0) || (rowIndex >=? rows)
    then Throw (Error MsgRowOutOfRange)
    else if (columnIndex <? 0) || (columnIndex >=? columns_)
    then Throw (Error MsgColumnOutOfRange)
    else
      let isBlankCell := (rowIndex <? headerRows) && (columnIndex <? headerColumns) in
      let isIndexCell := (rowIndex >=? headerRows) && (columnIndex <? headerColumns) in
      let isColumnsCell := (rowIndex <? headerRows) && (columnIndex >=? headerColumns) in
      if isBlankCell then
        let classNames :=
          ["blank"] ++ (if columnIndex >? 0
                        then ["level" +:+ string_of_Z rowIndex] else []) in
        Ok (TableCell.mk TableCellType.blank None (join " " classNames) (VStr ""))
      else if isIndexCell then
        let dataRowIndex := rowIndex - headerRows in
        let uuid_ := styler q ≫= uuid in
        let classNames :=
          ["row_heading"; "level" +:+ string_of_Z columnIndex;
           "row" +:+ string_of_Z dataRowIndex] in
        match at_index (Index.type (index q)) columnIndex,
              at_index (Index.data (index q)) columnIndex with
        | Some t, Some level =>
            let contentType := name t in
            Ok (TableCell.mk TableCellType.index
                  (if truthy_string uuid_
                   then Some ("T_" +:+ default "" uuid_ +:+ "level"
                              +:+ string_of_Z columnIndex +:+ "_row"
                              +:+ string_of_Z dataRowIndex)
                   else None)
                  (join " " classNames)
                  (VStr (betaToFormattedString (value_at level dataRowIndex)
                                               contentType)))
        | _, _ => Throw typeError
        end
      else if isColumnsCell then
        let dataColumnIndex := columnIndex - headerColumns in
        let classNames :=
          ["col_heading"; "level" +:+ string_of_Z rowIndex;
           "col" +:+ string_of_Z dataColumnIndex] in
        match at_index (columns q) rowIndex with
        | Some labels =>
            Ok (TableCell.mk TableCellType.columns None (join " " classNames)
                  (value_at labels dataColumnIndex))
        | None => Throw typeError
        end
      else
        let dataRowIndex := rowIndex - headerRows in
        let dataColumnIndex := columnIndex - headerColumns in
        let uuid_ := styler q ≫= uuid in
        let classNames :=
          ["data"; "row" +:+ string_of_Z dataRowIndex;
           "col" +:+ string_of_Z dataColumnIndex] in
        let contentType := at_index (Data.type (data q)) dataColumnIndex in
        let content :=
          match styler q with
          | Some (mkStyler _ _ _ (Some values)) =>
              match getCell values rowIndex columnIndex with
              | Ok cell => Ok (TableCell.content cell)
              | Throw e => Throw e
              end
          | _ =>
              match at_index (Data.data (data q)) dataRowIndex with
              | Some row =>
                  Ok (VStr (betaToFormattedString
                              (value_at row dataColumnIndex) contentType))
              | None => Throw typeError
              end
          end in
        match content with
        | Throw e => Throw e
        | Ok content =>
            Ok (TableCell.mk TableCellType.data
                  (if truthy_string uuid_
                   then Some ("T_" +:+ default "" uuid_ +:+ "row"
                              +:+ string_of_Z dataRowIndex +:+ "_col"
                              +:+ string_of_Z dataColumnIndex)
                   else None)
                  (join " " classNames)
                  content)
        end
  end.

End CellAddressing.

(** The class of a grid position as the specification words it, in
    priority order, from the dimensions alone. *)
Definition regionType (d : TableDimensions.t) (r c : Z) : TableCellType.t :=
  let headerRows := Z.of_nat (TableDimensions.headerRows d) in
  let headerColumns := Z.of_nat (TableDimensions.headerColumns d) in
  if (r <? headerRows) && (c <? headerColumns) then TableCellType.blank
  else if (headerRows <=? r) && (c <? headerColumns) then TableCellType.index
  else if (r <? headerRows) && (headerColumns <=? c) then TableCellType.columns
  else TableCellType.data.

(** A grid position inside the full header-and-body grid. *)
Definition in_grid (d : TableDimensions.t) (r c : Z) : Prop :=
  0 <= r < Z.of_nat (TableDimensions.rows d) /\
  0 <= c < Z.of_nat (TableDimensions.columns d).

(** A frame carries display values when its styling holds a nested frame
    of pre-formatted strings. *)
Definition has_displayValues (q : Quiver) : bool :=
  truthy (styler q ≫= displayValues).

(** The two messages the specification calls [IndexOutOfRange]. *)
Definition IndexOutOfRange (e : JsError) : Prop :=
  e = Error MsgRowOutOfRange \/ e = Error MsgColumnOutOfRange.

(** ** Value Comparator ([arrowProto.ts]) *)

Inductive Sensitivity := SensBase | SensAccent | SensCase | SensVariant.

Record CollatorOptions := mkCollatorOptions {
  numeric : bool;
  sensitivity : Sensitivity;
}.

(** ASCII case folding, to say when two strings differ only in case. *)
Definition lower_ascii (c : ascii) : ascii :=
  let n := nat_of_ascii c in
  if ((65 <=? n) && (n <=? 90))%nat then ascii_of_nat (n + 32) else c.

Fixpoint lower (s : string) : string :=
  match s with
  | EmptyString => EmptyString
  | String c s' => String (lower_ascii c) (lower s')
  end.

Section Comparator.

(** [new Intl.Collator(locale, options).compare], provided by the
    runtime. *)
Variable Intl_Collator_compare :
  string -> CollatorOptions -> string -> string -> Z.

(** [ToNumber] on a string, provided by the runtime; [None] is NaN. *)
Variable StringToNumber : string -> option Z.

Definition ToNumeric (v : Value) : option Z :=
  match v with
  | VStr s => StringToNumber s
  | _ => ToNumber v
  end.

(** The [<] operator: two strings are compared by their code units,
    anything else as numbers, and a comparison with NaN is false. *)
Definition js_lt (a b : Value) : bool :=
  match a, b with
  | VStr s, VStr s' => String.ltb s s'
  | _, _ =>
      match ToNumeric a, ToNumeric b with
      | Some x, Some y => x <? y
      | _, _ => false
      end
  end.

(** [a > b] is [b < a]. *)
Definition js_gt (a b : Value) : bool := js_lt b a.

Definition compareStrings (a b : Value) : Z :=
  let STRING_COLLATOR :=
    Intl_Collator_compare "en" (mkCollatorOptions false SensBase) in
  STRING_COLLATOR (ToString a) (ToString b).

Definition compareAny (a b : Value) : Z :=
  if js_lt a b then -1
  else if js_gt a b then 1
  else 0.

Definition compareValues (a b : Value) (type : string) : Z :=
  if bool_decide (type = "unicode") then compareStrings a b
  else compareAny a b.

End Comparator.

(** What the runtime guarantees of a collator: its result is a sign, and
    at base sensitivity strings that differ only in case are equal. *)
Definition collator_sign
    (collate : string -> CollatorOptions -> string -> string -> Z) : Prop :=
  forall locale options a b,
    collate locale options a b = -1 \/ collate locale options a b = 0
    \/ collate locale options a b = 1.

Definition collator_base_ignores_case
    (collate : string -> CollatorOptions -> string -> string -> Z) : Prop :=
  forall locale options a b,
    sensitivity options = SensBase -> lower a = lower b ->
    collate locale options a b = 0.

(** A collator for the examples: code-unit order after case folding when
    the sensitivity is base or accent, plain code-unit order otherwise. *)
Definition foldingCollator (locale : string) (options : CollatorOptions)
    (a b : string) : Z :=
  let fold s :=
    match sensitivity options with
    | SensBase | SensAccent => lower s
    | SensCase | SensVariant => s
    end in
  match String.compare (fold a) (fold b) with
  | Lt => -1
  | Eq => 0
  | Gt => 1
  end.

(** ** Schema Decoder and Column Materializer ([arrowProto.ts]) *)

Module RangeIndex.
Record t := mk {
  name : option string;
  start : Z;
  step : Z;
  stop : Z;
}.
End RangeIndex.

(** An entry of [index_columns]: a column reference or a range
    descriptor. *)
Inductive IndexColumn :=
| ColumnRef (field_name : string)
| RangeRef (r : RangeIndex.t).

Module SchemaColumn.
Record t := mk {
  field_name : string;
  metadata : option JsObject;
  name : option string;
  numpy_type : string;
  pandas_type : string;
}.
End SchemaColumn.

Record Schema := mkSchema {
  index_columns : list IndexColumn;
  schema_columns : list SchemaColumn.t;
  column_indexes : list Value;
}.

(** The decoded Arrow table, by what [arrowProto.ts] reads of it: the
    metadata map of its schema, its row count, and its named columns. *)
Record Table := mkTable {
  schema_metadata : gmap string string;
  table_length : nat;
  table_columns : list (string * list Value);
}.

Abbreviation Uint8Array := (list Corelib.Init.Byte.byte).

Record IStyler := mkIStyler {
  styler_uuid : option string;
  styler_caption : option string;
  styler_styles : option string;
  styler_displayValues : option Uint8Array;
}.

Record IArrow := mkIArrow {
  arrow_data : option Uint8Array;
  arrow_styler : option IStyler;
}.

(** The object of a range descriptor, as [JSON.parse] built it. *)
Definition rangeObject (r : RangeIndex.t) : JsObject :=
  {[ "kind" := VStr "range";
     "name" := match RangeIndex.name r with Some s => VStr s | None => VNull end;
     "start" := VNum (RangeIndex.start r);
     "step" := VNum (RangeIndex.step r);
     "stop" := VNum (RangeIndex.stop r) ]}.

(** [_.range(start, end, step)] of lodash. *)
Definition range (start stop step : Z) : list Z :=
  let length := Z.max (- ((- (stop - start)) / (if step =? 0 then 1 else step))) 0 in
  map (fun i => start + Z.of_nat i * step) (seq 0 (Z.to_nat length)).

(** [_.unzip(groups)] of lodash: as many rows as the longest group has
    entries, with [undefined] where a group is shorter. *)
Definition unzip (groups : list (list Value)) : list (list Value) :=
  let length := foldr (fun g n => Nat.max (List.length g) n) 0%nat groups in
  map (fun i => map (fun g => default VUndefined (g !! i)) groups)
      (seq 0 length).

(** [table.getColumn(name)] and [table.getColumnAt(i)]; [column.get(i)]
    is [null] outside the column. *)
Definition getColumn (table : Table) (field_name : string)
  : option (list Value) :=
  snd <$> List.find (fun c => bool_decide (fst c = field_name))
                    (table_columns table).

Definition getColumnAt (table : Table) (i : nat) : option (list Value) :=
  snd <$> table_columns table !! i.

Definition column_get (column : list Value) (i : nat) : Value :=
  default VNull (column !! i).

Definition isRangeIndex (field_ : IndexColumn) : bool :=
  match field_ with
  | RangeRef _ => true
  | ColumnRef _ => false
  end.

(** [schema.index_columns.includes(fieldName)] for a string. *)
Definition index_columns_includes (schema : Schema) (fieldName : string)
  : bool :=
  existsb (fun ic => match ic with
                     | ColumnRef f => bool_decide (f = fieldName)
                     | RangeRef _ => false
                     end) (index_columns schema).

(** The three [replace] calls of [getColumns], character by character. *)
Definition bracket (c : ascii) : ascii :=
  if Ascii.eqb c "("%char then "["%char
  else if Ascii.eqb c ")"%char then "]"%char
  else if Ascii.eqb c "'"%char then "034"%char
  else c.

Fixpoint replaceBrackets (s : string) : string :=
  match s with
  | EmptyString => EmptyString
  | String c s' => String (bracket c) (replaceBrackets s')
  end.

(** [result]-valued [map], left to right. *)
Fixpoint mapM {A B} (f : A -> result B) (l : list A) : result (list B) :=
  match l with
  | [] => Ok []
  | x :: l' => y ← f x; ys ← mapM f l'; Ok (y :: ys)
  end.

Section Parser.

(** The Arrow reader [Table.from] and the two uses of [JSON.parse]: on
    the schema string and on a bracketed column label.  [None] is a
    [SyntaxError]. *)
Variable Table_from : option Uint8Array -> result Table.
Variable JSON_parse_schema : string -> option Schema.
Variable JSON_parse_label : string -> option (list Value).

Definition syntaxError : JsError := mkError SyntaxErrorName MsgEngine.

Definition getSchema (table : Table) : result Schema :=
  match schema_metadata table !! "pandas" with
  | None => Throw (Error MsgSchemaMissing)
  | Some schema =>
      match JSON_parse_schema schema with
      | Some parsed => Ok parsed
      | None => Throw syntaxError
      end
  end.

Definition getColumnData (column : option (list Value))
  : result (list Value) :=
  match column with
  | None => Throw typeError
  | Some c => Ok (map (fun rowIndex => column_get c rowIndex)
                      (seq 0 (length c)))
  end.

Definition getIndex (table : Table) (schema : Schema)
  : result (list (list Value)) :=
  mapM (fun field_ =>
          match field_ with
          | RangeRef r =>
              Ok (map VNum (range (RangeIndex.start r) (RangeIndex.stop r)
                                  (RangeIndex.step r)))
          | ColumnRef f => getColumnData (getColumn table f)
          end) (index_columns schema).

Definition getIndexType (schema : Schema) : list IndexType :=
  map (fun indexName =>
         match indexName with
         | RangeRef r => mkIndexType (Some RangeIndexName) (Some (rangeObject r))
         | ColumnRef f =>
             let indexColumn :=
               List.find (fun column =>
                            bool_decide (SchemaColumn.field_name column = f))
                         (schema_columns schema) in
             mkIndexType
               (if bool_decide (SchemaColumn.pandas_type <$> indexColumn
                                = Some "object")
                then SchemaColumn.numpy_type <$> indexColumn
                else SchemaColumn.pandas_type <$> indexColumn)
               (indexColumn ≫= SchemaColumn.metadata)
         end) (index_columns schema).

Definition getColumns (schema : Schema) : result Columns :=
  let isMultiIndex := (1 <? length (column_indexes schema))%nat in
  groups ←
    mapM (fun fieldName =>
            if isMultiIndex then
              match JSON_parse_label (replaceBrackets fieldName) with
              | Some parts => Ok parts
              | None => Throw syntaxError
              end
            else Ok [VStr fieldName])
         (filter (fun fieldName => index_columns_includes schema fieldName = false)
                 (map SchemaColumn.field_name (schema_columns schema)));
  Ok (unzip groups).

Definition getData (table : Table) (columns : Columns) : list (list Value) :=
  let rows := table_length table in
  let cols := match columns with labels0 :: _ => length labels0 | [] => 0%nat end in
  map (fun rowIndex =>
         map (fun columnIndex =>
                match getColumnAt table columnIndex with
                | Some column => column_get column rowIndex
                | None => VUndefined
                end) (seq 0 cols))
      (seq 0 rows).

Definition getDataColumnType (table : Table) (schema : Schema) : list string :=
  let rows := table_length table in
  if (0 <? rows)%nat then
    map SchemaColumn.pandas_type
        (filter (fun column =>
                   index_columns_includes schema (SchemaColumn.field_name column)
                   = false)
                (schema_columns schema))
  else [].

(** The body of [parseTable], with the call it makes on the display
    values of the styler as a parameter. *)
Definition parseTableWith (nested : option IArrow -> result DataFrame)
    (element : option IArrow) : result DataFrame :=
  try_catch
    (table ← Table_from (element ≫= arrow_data);
     let tableStyler := element ≫= arrow_styler in
     schema ← getSchema table;
     columns ← getColumns schema;
     indexData ← getIndex table schema;
     let index := Index.mk indexData (getIndexType schema) in
     let data := Data.mk (getData table columns) (getDataColumnType table schema) in
     styler ←
       match tableStyler with
       | Some tableStyler =>
           values ← nested (Some (mkIArrow (styler_displayValues tableStyler) None));
           Ok (Some (mkStyler (styler_uuid tableStyler)
                              (styler_caption tableStyler)
                              (styler_styles tableStyler)
                              (Some (Quiver_new values))))
       | None => Ok None
       end;
     Ok (mkQuiver index columns data styler))
    (fun e => Error (MsgStringOf (err_name e) (err_message e))).

(** [parseTable]: the element it builds for the display values has no
    styler, so the recursion stops after one nested call. *)
Definition parseTable (element : option IArrow) : result DataFrame :=
  parseTableWith (parseTableWith (fun _ => Throw typeError)) element.

End Parser.

(** The error the specification calls [SchemaMissing], as [parseTable]
    lets it out: wrapped once by its [catch]. *)
Definition SchemaMissing : JsError :=
  Error (MsgStringOf ErrorName MsgSchemaMissing).

(** ** The error kinds of the specification *)

Definition StyledConcatUnsupported (e : JsError) : Prop :=
  e = Error MsgStyler.

Definition IndexTypeMismatch (e : JsError) : Prop :=
  exists first second, e = Error (MsgIndexType first second).

Definition DataTypeMismatch (e : JsError) : Prop :=
  exists first second, e = Error (MsgDataType first second).

(** A failure that is none of the specified ones: the engine's own
    error on a read from [undefined], as raised or as [concatTables]
    throws it again. *)
Definition RuntimeTypeError (e : JsError) : Prop :=
  e = typeError \/ e = Error MsgEngine.

Definition fails_with {A} (r : result A) (P : JsError -> Prop) : Prop :=
  exists e, r = Throw e /\ P e.

(** Zero data rows, zero entries in the first index level, zero column
    labels. *)
Definition structurally_empty (df : Quiver) : Prop :=
  Data.data (data df) = [] /\
  Index.data (index df) !! 0%nat = Some [] /\
  columns df = [].

(** ** The statements of the specification that the code does not meet,
    as they are written *)

(** Range extension, for every pair of non-empty, non-styled frames with
    one range index level. *)
Definition range_extension_as_stated (df1 df2 : Quiver) : Prop :=
  forall first second t1 t2 m1 stop step,
    non_empty df1 -> non_empty df2 ->
    styler df1 = None -> styler df2 = None ->
    index df1 = Index.mk [first] [t1] ->
    index df2 = Index.mk [second] [t2] ->
    name t1 = Some RangeIndexName -> name t2 = name t1 ->
    meta t1 = Some m1 ->
    m1 !! "stop" = Some (VNum stop) -> m1 !! "step" = Some (VNum step) ->
    exists q t m,
      concatTables df1 df2 = Ok q /\
      Index.data (index q) = [first ++ progression stop step (length second)] /\
      Index.type (index q) = [t] /\ meta t = Some m /\
      m !! "stop" = Some (VNum (stop + Z.of_nat (length second) * step)).

(** [DataTypeMismatch] exactly when the two tag sequences are not
    identical. *)
Definition data_types_as_stated (df1 df2 : Quiver) : Prop :=
  non_empty df1 -> non_empty df2 ->
  styler df1 = None -> styler df2 = None ->
  (fails_with (concatTables df1 df2) DataTypeMismatch <->
   Data.type (data df1) <> Data.type (data df2)).

(** Every row of the merged body has exactly the base's data-column
    count of entries. *)
Definition body_rows_as_stated (df1 df2 : Quiver) : Prop :=
  non_empty df1 -> non_empty df2 ->
  styler df1 = None -> styler df2 = None ->
  sameDataColumnTypes (Data.type (data df1)) (Data.type (data df2)) = true ->
  forall q, concatTables df1 df2 = Ok q ->
    (exists fitted,
        Data.data (data q) = Data.data (data df1) ++ fitted /\
        length fitted = length (Data.data (data df2))) /\
    Forall (fun row => length row = length (Data.type (data df1)))
           (Data.data (data q)) /\
    Data.type (data q) = Data.type (data df1).

(** An empty frame on either side leaves the other frame as the
    result. *)
Definition empty_side_as_stated (F G : Quiver) : Prop :=
  styler F = None -> styler G = None -> structurally_empty F ->
  concatTables F G = Ok G /\ concatTables G F = Ok G.

(** With a frame of zero index levels on either side, neither a frame
    nor a specified error comes out. *)
Definition zero_levels_as_stated (df1 df2 : Quiver) : Prop :=
  Index.data (index df1) = [] \/ Index.data (index df2) = [] ->
  (forall q, concatTables df1 df2 <> Ok q) /\
  ~ fails_with (concatTables df1 df2)
      (fun e => StyledConcatUnsupported e \/ IndexTypeMismatch e
                \/ DataTypeMismatch e).

(** ** Frames of the examples *)

(** The two frames of the specification's range example. *)
Definition threeRows : Quiver :=
  rangeFrame 0 1 3 [0; 1; 2] ["a"] [[VNum 10]; [VNum 11]; [VNum 12]] ["int64"].

Definition twoRows : Quiver :=
  rangeFrame 0 1 2 [0; 1] ["a"] [[VNum 20]; [VNum 21]] ["int64"].

(** A frame with a column label and no row, as the parser builds it from
    a table of zero rows: the type list is empty. *)
Definition labelledNoRows : Quiver :=
  rangeFrame 0 1 0 [] ["a"] [] [].

(** Two rows whose range starts at 3. *)
Definition rowsFromThree : Quiver :=
  rangeFrame 3 1 5 [3; 4] ["a"] [[VNum 10]; [VNum 20]] ["int64"].

(** One row of one column, and one row of two columns. *)
Definition oneColumn : Quiver :=
  rangeFrame 0 1 1 [0] ["a"] [[VNum 1]] ["int64"].

Definition twoColumns : Quiver :=
  rangeFrame 0 1 1 [0] ["a"; "b"] [[VNum 2; VStr "x"]] ["int64"; "unicode"].

Definition oneUnicodeColumn : Quiver :=
  rangeFrame 0 1 1 [0] ["a"] [[VStr "x"]] ["unicode"].

(** Two columns of type tags, with a full row and with a short row. *)
Definition fullRow : Quiver :=
  rangeFrame 0 1 1 [0] ["a"; "b"] [[VNum 1; VNum 2]] ["int64"; "int64"].

Definition shortRow : Quiver :=
  rangeFrame 0 1 1 [0] ["a"; "b"] [[VNum 3]] ["int64"; "int64"].

(** Two structurally empty frames that differ in their index type. *)
Definition emptyRange : Quiver :=
  rangeFrame 0 1 0 [] [] [] [].

Definition emptyUnicode : Quiver :=
  mkQuiver (Index.mk [[]] [mkIndexType (Some "unicode") None]) []
           (Data.mk [] []) None.

(** A frame with one row and no index level. *)
Definition noIndexLevel : Quiver :=
  mkQuiver (Index.mk [] []) [[VStr "a"]] (Data.mk [[VNum 2]] ["int64"]) None.

(** A frame with no row and no index level. *)
Definition noIndexLevelNoRows : Quiver :=
  mkQuiver (Index.mk [] []) [[VStr "a"]] (Data.mk [] []) None.

(** ** The shape of a frame, in the words of the data model *)

(** Index-derived row count: the entries of the first index level. *)
Definition indexRows (q : Quiver) : nat :=
  match Index.data (index q) with
  | [] => 0%nat
  | level0 :: _ => length level0
  end.

(** Columns-derived column count: the labels of the first label level. *)
Definition labelColumns (q : Quiver) : nat :=
  match columns q with
  | [] => 0%nat
  | labels0 :: _ => length labels0
  end.

(** The body's own shape: its rows, and the entries of its first row. *)
Definition bodyRows (q : Quiver) : nat := length (Data.data (data q)).

Definition bodyColumns (q : Quiver) : nat :=
  match Data.data (data q) with
  | [] => 0%nat
  | row0 :: _ => length row0
  end.

Definition DimensionMismatch (e : JsError) : Prop :=
  exists dataRows dataRowsCheck dataColumns dataColumnsCheck,
    e = Error (MsgDimensions dataRows dataRowsCheck dataColumns dataColumnsCheck).

(** The dimensions that are returned are consistent, and a body with at
    least one row (the test [this.data.data.length] of the code) whose
    row count differs from the index-derived count, or whose column
    count differs from the columns-derived count, raises the dimension
    mismatch. *)
Definition dimensions_as_stated (q : Quiver) : Prop :=
  (forall d, dimensions q = Ok d ->
     TableDimensions.rows d =
       (TableDimensions.headerRows d + TableDimensions.dataRows d)%nat /\
     TableDimensions.columns d =
       (TableDimensions.headerColumns d + TableDimensions.dataColumns d)%nat /\
     TableDimensions.headerColumns d = length (Index.data (index q)) /\
     TableDimensions.headerRows d = Nat.max 1 (length (columns q)) /\
     TableDimensions.dataRows d = bodyRows q /\
     TableDimensions.dataColumns d =
       (if (bodyRows q =? 0)%nat then labelColumns q else bodyColumns q)) /\
  (bodyRows q <> 0%nat ->
   bodyRows q <> indexRows q \/ bodyColumns q <> labelColumns q ->
   fails_with (dimensions q) DimensionMismatch).

(** Two rows without entries under one column label: what [concatTables]
    returns for [labelledNoRows] and [rowsFromThree], whose rows are cut
    to the base's zero type tags. *)
Definition zeroWidthRows : Quiver :=
  rangeFrame 3 1 5 [3; 4] ["a"] [[]; []] [].

(** [getCell] fails with [IndexOutOfRange] exactly outside the grid and
    returns a cell everywhere inside, for every frame whose dimensions
    are computed. *)
Definition getCell_range_as_stated (q : Quiver) : Prop :=
  forall (betaToFormattedString : Value -> option string -> string) d r c,
    dimensions q = Ok d ->
    (fails_with (getCell betaToFormattedString q r c) IndexOutOfRange
     <-> ~ in_grid d r c) /\
    (in_grid d r c ->
     exists cell, getCell betaToFormattedString q r c = Ok cell).

(** A frame of one body cell; the same frame with a styling whose
    display values have no row. *)
Definition oneCell : Quiver :=
  rangeFrame 0 1 1 [0] ["a"] [[VNum 1]] ["int64"].

Definition oneCellStyled : Quiver :=
  mkQuiver (index oneCell) (columns oneCell) (data oneCell)
           (Some (mkStyler (Some "x") None None (Some labelledNoRows))).

(** A formatting routine for the examples. *)
Definition plainFormat (v : Value) (type : option string) : string :=
  ToString v.

(** The table an absent payload decodes to: no metadata, no row, no
    column. *)
Definition emptyTable : Table := mkTable ∅ 0 [].

(** A table of two rows and one column, its schema, and a reader of the
    schema text. *)
Definition twoRowTable : Table :=
  mkTable {[ "pandas" := "schema of two rows" ]} 2
          [("a", [VNum 20; VNum 21])].

Definition twoRowSchema : Schema :=
  mkSchema [RangeRef (RangeIndex.mk None 0 1 2)]
           [SchemaColumn.mk "a" None (Some "a") "int64" "int64"]
           [VNull].

Definition readSchema (text : string) : option Schema :=
  if bool_decide (text = "schema of two rows") then Some twoRowSchema
  else None.


(** ** The rest of the table model ([Quiver.ts]) *)

(** The getter [tableId]: [undefined] without a styling identifier, the
    empty identifier as it is, [T_<uuid>] otherwise. *)
Definition tableId (q : Quiver) : option string :=
  match styler q ≫= uuid with
  | None => None
  | Some u => if truthy_string (Some u) then Some ("T_" +:+ u) else Some u
  end.

Definition tableStyles (q : Quiver) : option string := styler q ≫= styles.

Definition tableCaption (q : Quiver) : option string := styler q ≫= caption.

(** The getter [tableRowsAndColumns]. *)
Definition tableRowsAndColumns (q : Quiver) : nat * nat :=
  match Data.data (data q) with
  | [] => (0, 0)%nat
  | row0 :: _ =>
      let cols := length row0 in
      if (cols =? 0)%nat then (0, 0)%nat
      else
        let rows := length (Data.data (data q)) in
        (rows, cols)
  end.

(** What [getSortedDataRowIndices] gives: the row indices in display
    order, or its error on a bad column. *)
Inductive SortResult :=
| SortedIndices (indices : list nat)
| BadSortColumnIdx (sortColumnIdx : Z) (dataColumns : nat).
                       (* Bad sortColumnIdx .. (should be >= 0, < ..) *)

Section Sorting.

Variable Intl_Collator_compare :
  string -> CollatorOptions -> string -> string -> Z.
Variable StringToNumber : string -> option Z.

(** [Array.prototype.sort] on an array of row indices, provided by the
    runtime. *)
Variable Array_sort : (nat -> nat -> Z) -> list nat -> list nat.

(** [this.data.data[rowIdx][sortColumnIdx]].  The comparator is only called
    on elements of [indices], which are below [this.data.data.length], so
    the row read never hits a missing row; a missing entry of the row reads
    as [undefined]. *)
Definition sortValue (q : Quiver) (sortColumnIdx : Z) (rowIdx : nat) : Value :=
  match Data.data (data q) !! rowIdx with
  | Some row => value_at row sortColumnIdx
  | None => VUndefined
  end.

(** The comparator handed to [sort]. *)
Definition sortComparator (q : Quiver) (sortColumnIdx : Z)
    (sortAscending : bool) (aRowIdx bRowIdx : nat) : Z :=
  let sortColumnType := at_index (Data.type (data q)) sortColumnIdx in
  let compare a b :=
    match sortColumnType with
    | Some type => compareValues Intl_Collator_compare StringToNumber a b type
    | None => compareAny StringToNumber a b
    end in
  let aValue := sortValue q sortColumnIdx aRowIdx in
  let bValue := sortValue q sortColumnIdx bRowIdx in
  if sortAscending then compare aValue bValue else compare bValue aValue.

Definition getSortedDataRowIndices (q : Quiver) (sortColumnIdx : Z)
    (sortAscending : bool) : SortResult :=
  let '(dataRows, dataColumns) := tableRowsAndColumns q in
  if (sortColumnIdx <? 0) || (sortColumnIdx >=? Z.of_nat dataColumns)
  then BadSortColumnIdx sortColumnIdx dataColumns
  else
    let indices := seq 0 dataRows in
    SortedIndices (Array_sort (sortComparator q sortColumnIdx sortAscending)
                              indices).

End Sorting.

(** A comparator the runtime sorts an array [l] by: on the elements of
    [l], the sign of [cmp b a] is the opposite of the sign of
    [cmp a b], and being ordered before or equal is transitive. *)
Definition consistent_comparator (cmp : nat -> nat -> Z) (l : list nat)
  : Prop :=
  (forall a b, a ∈ l -> b ∈ l -> (cmp a b < 0 <-> 0 < cmp b a)) /\
  (forall a b c, a ∈ l -> b ∈ l -> c ∈ l ->
                 cmp a b <= 0 -> cmp b c <= 0 -> cmp a c <= 0).

(** What the runtime guarantees of [sort]: the result is a rearrangement
    of the array, and it is ordered when the comparator is consistent
    on the array. *)
Definition sort_contract
    (sort : (nat -> nat -> Z) -> list nat -> list nat) : Prop :=
  (forall cmp l, Permutation (sort cmp l) l) /\
  (forall cmp l, consistent_comparator cmp l ->
                 StronglySorted (fun a b => cmp a b <= 0) (sort cmp l)).

(** A sort for the examples: insertion sort by the comparator, equal
    elements kept in their order. *)
Fixpoint insertSorted (cmp : nat -> nat -> Z) (x : nat) (l : list nat)
  : list nat :=
  match l with
  | [] => [x]
  | y :: l' => if cmp x y <=? 0 then x :: y :: l'
               else y :: insertSorted cmp x l'
  end.

Definition insertionSort (cmp : nat -> nat -> Z) (l : list nat) : list nat :=
  foldr (insertSorted cmp) [] l.

(** ** [addRows] and the arrays it shares with its argument

    [concatRangeIndex] pushes onto the array of the base's level and
    writes the base's [meta.stop]; [concatAnyIndex] writes the base's
    [meta.num_categories].  The functions below give the content of the
    base's index after the call, whether it returned or threw.  The two
    frames are taken not to share arrays or type objects. *)

(** The levels from position [i] on; a level whose merge throws stops
    the loop with nothing written for it. *)
Fixpoint concatLevels_after (i : nat) (levels : list (list Value))
    (secondIndices : Index.t) (st : Index.t) : Index.t :=
  match levels with
  | [] => st
  | firstIndexData :: rest =>
      let indexType := Index.type st !! i in
      match concatIndex firstIndexData (Index.data secondIndices !! i)
                        indexType with
      | Throw _ => st
      | Ok concatenatedIndex =>
          let isRange :=
            bool_decide (indexType ≫= name = Some RangeIndexName) in
          concatLevels_after (S i) rest secondIndices
            (Index.mk
               (if isRange
                then <[i := IndexData.data concatenatedIndex]> (Index.data st)
                else Index.data st)
               (<[i := IndexData.type concatenatedIndex]> (Index.type st)))
      end
  end.

Definition concatIndices_after (firstIndices secondIndices : Index.t)
  : Index.t :=
  match Index.data firstIndices !! 0%nat with
  | None => firstIndices
  | Some level0 =>
      if (length level0 =? 0)%nat then firstIndices
      else if negb (sameIndexTypes (Index.type firstIndices)
                                   (Index.type secondIndices))
      then firstIndices
      else concatLevels_after 0 (Index.data firstIndices) secondIndices
                              firstIndices
  end.

(** The first argument of [concatTables] after the call. *)
Definition concatTables_after (df1 df2 : Quiver) : Quiver :=
  if truthy (styler df1) || truthy (styler df2) then df1
  else
    match isEmptyDf df1 with
    | Ok false =>
        match isEmptyDf df2 with
        | Ok false =>
            mkQuiver (concatIndices_after (index df1) (index df2))
                     (columns df1) (data df1) (styler df1)
        | _ => df1
        end
    | _ => df1
    end.

(** The method [addRows]: what it raises, if anything, and the receiver
    after the call. *)
Definition addRows (this newRows : Quiver) : result unit * Quiver :=
  match concatTables this newRows with
  | Ok merged =>
      (Ok (), mkQuiver (index merged) (columns merged) (data merged)
                       (styler merged))
  | Throw e => (Throw e, concatTables_after this newRows)
  end.

(** ** The cell cache of the data editor ([DataEditor.tsx]) *)

Section ContentCache.

(** The grid cell of the grid library. *)
Variable GridCell : Type.

(** [cachedContent]: column, then row, then value. *)
Definition ContentCache := gmap Z (gmap Z GridCell).

Definition cache_get (cache : ContentCache) (col row : Z) : option GridCell :=
  match cache !! col with
  | None => None
  | Some colCache => colCache !! row
  end.

Definition cache_set (cache : ContentCache) (col row : Z) (value : GridCell)
  : ContentCache :=
  let cache' :=
    match cache !! col with
    | None => <[col := ∅]> cache
    | Some _ => cache
    end in
  match cache' !! col with
  | Some rowCache => <[col := <[row := value]> rowCache]> cache'
  | None => cache'
  end.

End ContentCache.

(** ** Well-shaped frames *)

(** The index of a frame is regular when it has a type for each level
    and all levels have the same number of entries. *)
Definition regular_index (ix : Index.t) (n : nat) : Prop :=
  length (Index.data ix) = length (Index.type ix) /\
  Forall (fun level => length level = n) (Index.data ix).

(** A frame is complete when its body has as many rows as its first
    index level has entries. *)
Definition complete (q : Quiver) : Prop := bodyRows q = indexRows q.

(** The number in column [sortColumnIdx] of row [rowIdx], 0 when the
    value there is not a number. *)
Definition numberAt (q : Quiver) (sortColumnIdx : Z) (rowIdx : nat) : Z :=
  match sortValue q sortColumnIdx rowIdx with
  | VNum n => n
  | _ => 0
  end.

(** A frame of three rows whose column holds 30, 10 and 20. *)
Definition unsortedRows : Quiver :=
  rangeFrame 0 1 3 [0; 1; 2] ["a"] [[VNum 30]; [VNum 10]; [VNum 20]] ["int64"].

(** An index type that is neither range nor categorical. *)
Definition plain_type (t : IndexType) : Prop :=
  name t <> Some RangeIndexName /\ name t <> Some CategoricalIndexName.
(** ** Properties of the array helpers *)

Lemma every_from_lookup {A} (p : A -> nat -> bool) (l : list A) (i : nat) :
  every_from i p l = true <->
  forall k x, l !! k = Some x -> p x (i + k)%nat = true.
Proof.
  revert i. induction l as [|y l IH]; intros i; simpl.
  - split; [intros _ k x Hk; rewrite lookup_nil in Hk; discriminate | done].
  - rewrite andb_true_iff, IH. split.
    + intros [Hy Hl] [|k] x Hk; simpl in Hk.
      * injection Hk as <-. by rewrite Nat.add_0_r.
      * rewrite <- Nat.add_succ_comm. by apply Hl.
    + intros H. split.
      * specialize (H 0%nat y eq_refl). by rewrite Nat.add_0_r in H.
      * intros k x Hk. rewrite Nat.add_succ_comm. by apply (H (S k)).
Qed.

Lemma every_lookup {A} (p : A -> nat -> bool) (l : list A) :
  every p l = true <-> forall k x, l !! k = Some x -> p x k = true.
Proof. unfold every. by rewrite every_from_lookup. Qed.

(** [sameDataColumnTypes] has no length test: it accepts exactly the
    pairs in which the first list is a prefix of the second. *)
Lemma sameDataColumnTypes_prefix (firstType secondType : list string) :
  sameDataColumnTypes firstType secondType = true <->
  firstType `prefix_of` secondType.
Proof.
  unfold sameDataColumnTypes. rewrite every_lookup. split.
  - intros H. exists (drop (length firstType) secondType).
    apply list_eq. intros k.
    destruct (decide (k < length firstType)%nat) as [Hlt|Hge].
    + rewrite lookup_app_l by done.
      destruct (lookup_lt_is_Some_2 firstType k Hlt) as [x Hx].
      rewrite Hx. specialize (H k x Hx). by apply bool_decide_eq_true in H.
    + rewrite lookup_app_r by lia. rewrite lookup_drop. f_equal. lia.
  - intros [rest ->] k x Hk. apply bool_decide_eq_true.
    by apply lookup_app_l_Some.
Qed.

Lemma sameDataColumnTypes_refl (types : list string) :
  sameDataColumnTypes types types = true.
Proof. by apply sameDataColumnTypes_prefix. Qed.

(** ** The emptiness test *)

Lemma isEmptyDf_rows (df : Quiver) :
  Data.data (data df) <> [] -> isEmptyDf df = Ok false.
Proof.
  unfold isEmptyDf. destruct (Data.data (data df)); [done | by simpl].
Qed.

Lemma isEmptyDf_level0 (df : Quiver) (level0 : list Value) :
  Index.data (index df) !! 0%nat = Some level0 ->
  isEmptyDf df =
    Ok ((length (Data.data (data df)) =? 0)%nat
        && (length level0 =? 0)%nat && (length (columns df) =? 0)%nat).
Proof.
  intros H. unfold isEmptyDf. rewrite H.
  by destruct (length (Data.data (data df)) =? 0)%nat.
Qed.

Lemma isEmptyDf_no_level (df : Quiver) :
  Index.data (index df) = [] ->
  isEmptyDf df =
    if (length (Data.data (data df)) =? 0)%nat then Throw typeError
    else Ok false.
Proof.
  intros H. unfold isEmptyDf. rewrite H. simpl.
  by destruct (length (Data.data (data df)) =? 0)%nat.
Qed.

(** ** The range index *)

Lemma progression_S (stop step : Z) (n : nat) :
  progression stop step (S n) = VNum stop :: progression (stop + step) step n.
Proof.
  unfold progression. simpl. f_equal; [f_equal; lia |].
  rewrite <- seq_shift, map_map. apply map_ext. intros i. f_equal. lia.
Qed.

Lemma rangeStep_num (m : JsObject) (step stop : Z) (d : list Value) (x : Value) :
  m !! "step" = Some (VNum step) ->
  rangeStep (d, VNum stop, <["stop" := VNum stop]> m) x =
    (d ++ [VNum stop], VNum (stop + step), <["stop" := VNum (stop + step)]> m).
Proof.
  intros Hstep. unfold rangeStep, field.
  rewrite lookup_insert_ne by done. rewrite Hstep. simpl.
  by rewrite insert_insert_eq.
Qed.

Lemma rangeStep_fold (m : JsObject) (step : Z) (second : list Value) :
  m !! "step" = Some (VNum step) ->
  forall (d : list Value) (stop : Z),
    fold_left rangeStep second (d, VNum stop, <["stop" := VNum stop]> m) =
    (d ++ progression stop step (length second),
     VNum (stop + Z.of_nat (length second) * step),
     <["stop" := VNum (stop + Z.of_nat (length second) * step)]> m).
Proof.
  intros Hstep. induction second as [|x second IH]; intros d stop.
  - simpl. rewrite app_nil_r. repeat f_equal; lia.
  - cbn [fold_left length]. rewrite progression_S.
    rewrite (rangeStep_num m step stop d x Hstep), IH, <- app_assoc. simpl.
    replace (stop + step + Z.of_nat (length second) * step)
      with (stop + Z.pos (Pos.of_succ_nat (length second)) * step) by lia.
    reflexivity.
Qed.

Lemma concatRangeIndex_progression (firstIndex second : list Value)
    (t : IndexType) (m : JsObject) (stop step : Z) :
  meta t = Some m ->
  m !! "stop" = Some (VNum stop) ->
  m !! "step" = Some (VNum step) ->
  concatRangeIndex firstIndex (Some second) t =
    Ok (IndexData.mk
          (firstIndex ++ progression stop step (length second))
          (mkIndexType (name t)
             (Some (<["stop" := VNum (stop + Z.of_nat (length second) * step)]> m)))).
Proof.
  intros Hm Hstop Hstep. unfold concatRangeIndex. rewrite Hm.
  unfold field at 1. rewrite Hstop. cbn [default].
  pose proof (rangeStep_fold m step second Hstep firstIndex stop) as Hfold.
  rewrite (insert_id m "stop" (VNum stop) Hstop) in Hfold.
  change (id (VNum stop)) with (VNum stop). by rewrite Hfold.
Qed.

(** ** The index merge on other kinds of levels *)

(** [sameIndexTypes] accepts exactly the pairs with the same sequence of
    type names. *)
Lemma sameIndexTypes_names (firstType secondType : list IndexType) :
  sameIndexTypes firstType secondType = true <->
  map name firstType = map name secondType.
Proof.
  unfold sameIndexTypes.
  destruct (length firstType =? length secondType)%nat eqn:Hlen; simpl.
  - apply Nat.eqb_eq in Hlen. rewrite every_lookup. split.
    + intros H. apply list_eq. intros k.
      change (map name) with (fmap (M := list) name).
      rewrite !list_lookup_fmap.
      destruct (firstType !! k) as [x|] eqn:Hx; simpl.
      * specialize (H k x Hx).
        destruct (secondType !! k) as [t|]; [| done]. simpl.
        apply bool_decide_eq_true in H. by rewrite H.
      * apply lookup_ge_None in Hx.
        rewrite (proj2 (lookup_ge_None secondType k)) by lia. done.
    + intros H k x Hx.
      assert (map name firstType !! k = map name secondType !! k) as Hk
        by (by rewrite H).
      change (map name) with (fmap (M := list) name) in Hk.
      rewrite !list_lookup_fmap, Hx in Hk. simpl in Hk.
      destruct (secondType !! k) as [t|]; simpl in Hk; [| done].
      apply bool_decide_eq_true. congruence.
  - apply Nat.eqb_neq in Hlen. split; [done |].
    intros H. apply (f_equal length) in H. rewrite !length_map in H. done.
Qed.

(** A categorical level is joined and its category count grows by the
    number of added entries; any other level is joined as it is. *)
Example concatIndices_categorical :
  concatIndices
    (Index.mk [[VStr "a"]; [VNum 7]]
       [mkIndexType (Some CategoricalIndexName)
                    (Some {[ "num_categories" := VNum 1 ]});
        mkIndexType (Some "int64") None])
    (Index.mk [[VStr "b"; VStr "c"]; [VNum 8; VNum 9]]
       [mkIndexType (Some CategoricalIndexName)
                    (Some {[ "num_categories" := VNum 2 ]});
        mkIndexType (Some "int64") None])
  = Ok (Index.mk [[VStr "a"; VStr "b"; VStr "c"]; [VNum 7; VNum 8; VNum 9]]
          [mkIndexType (Some CategoricalIndexName)
                       (Some {[ "num_categories" := VNum 3 ]});
           mkIndexType (Some "int64") None]).
Proof. vm_compute. reflexivity. Qed.

(** Index levels of different kinds are refused. *)
Example concatIndices_mismatch :
  concatIndices (index threeRows)
                (Index.mk [[VStr "x"]] [mkIndexType (Some "unicode") None])
  = Throw (Error (MsgIndexType [rangeType 0 1 3]
                               [mkIndexType (Some "unicode") None])).
Proof. reflexivity. Qed.

(** A styled frame is refused before anything else is looked at. *)
Example concatTables_styled :
  concatTables oneCellStyled noIndexLevelNoRows = Throw (Error MsgStyler).
Proof. reflexivity. Qed.

(** ** [concatTables] on frames without styling *)

Lemma isEmptyDf_true_iff (df : Quiver) :
  isEmptyDf df = Ok true <-> structurally_empty df.
Proof.
  unfold isEmptyDf, structurally_empty.
  destruct (Data.data (data df)) as [|row rows]; simpl.
  - destruct (Index.data (index df) !! 0%nat) as [[|x level0]|]; simpl.
    + destruct (columns df); simpl; split; try done.
      * intros (_ & _ & ?). done.
    + split; [done | intros (_ & ? & _); done].
    + split; [done | intros (_ & ? & _); done].
  - split; [done | intros (? & _); done].
Qed.

Lemma concatTables_unstyled (df1 df2 : Quiver) :
  styler df1 = None -> styler df2 = None ->
  concatTables df1 df2 =
    (empty1 ← isEmptyDf df1;
     if (empty1 : bool) then Ok df2
     else
       empty2 ← isEmptyDf df2;
       if (empty2 : bool) then Ok df1
       else
         try_catch
           (index ← concatIndices (index df1) (index df2);
            data ← concatData (data df1) (data df2);
            Ok (Quiver_new (mkQuiver index (columns df1) data None)))
           (fun e => Error (err_message e))).
Proof. intros H1 H2. unfold concatTables. by rewrite H1, H2. Qed.

Lemma concatTables_non_empty (df1 df2 : Quiver) :
  styler df1 = None -> styler df2 = None ->
  non_empty df1 -> non_empty df2 ->
  concatTables df1 df2 =
    try_catch
      (index ← concatIndices (index df1) (index df2);
       data ← concatData (data df1) (data df2);
       Ok (Quiver_new (mkQuiver index (columns df1) data None)))
      (fun e => Error (err_message e)).
Proof.
  intros H1 H2 E1 E2. rewrite concatTables_unstyled by done.
  unfold non_empty in *. by rewrite E1, E2.
Qed.

(** The callback of [concatIndices] and the whole index merge can fail
    in two ways only. *)
Lemma concatIndex_throws firstIndex secondIndex indexType e :
  concatIndex firstIndex secondIndex indexType = Throw e -> e = typeError.
Proof.
  unfold concatIndex, concatRangeIndex, concatAnyIndex.
  repeat (case_match; try done); congruence.
Qed.

Lemma reduce_from_throws {A B} (f : B -> A -> nat -> result B)
    (P : JsError -> Prop) :
  (forall acc x i e, f acc x i = Throw e -> P e) ->
  forall l i acc e, reduce_from i f l acc = Throw e -> P e.
Proof.
  intros Hf. induction l as [|x l IH]; intros i acc e; simpl; [done |].
  destruct (f acc x i) as [acc'|e'] eqn:Hfx; simpl.
  - apply IH.
  - intros [= <-]. by eapply Hf.
Qed.

Lemma concatIndices_throws firstIndices secondIndices e :
  concatIndices firstIndices secondIndices = Throw e ->
  e = typeError \/ IndexTypeMismatch e.
Proof.
  unfold concatIndices.
  destruct (Index.data firstIndices !! 0%nat); [| left; congruence].
  destruct (length l =? 0)%nat; [done |].
  destruct (negb _).
  - intros [= <-]. right. by eexists _, _.
  - intros H. left. revert H. unfold reduce.
    apply (reduce_from_throws _ (fun e => e = typeError)).
    intros acc x i e'.
    destruct (concatIndex _ _ _) eqn:Hc; simpl; [done |].
    intros [= <-]. by eapply concatIndex_throws.
Qed.

(** The merge of a single range level whose first frame has entries. *)
Lemma concatIndices_single_range (first second : list Value)
    (t1 t2 : IndexType) (m1 : JsObject) (stop step : Z) :
  first <> [] ->
  name t1 = Some RangeIndexName -> name t2 = name t1 ->
  meta t1 = Some m1 ->
  m1 !! "stop" = Some (VNum stop) -> m1 !! "step" = Some (VNum step) ->
  concatIndices (Index.mk [first] [t1]) (Index.mk [second] [t2]) =
    Ok (Index.mk
          [first ++ progression stop step (length second)]
          [mkIndexType (Some RangeIndexName)
             (Some (<["stop" := VNum (stop + Z.of_nat (length second) * step)]> m1))]).
Proof.
  intros Hne Hn1 Hn2 Hm Hstop Hstep. unfold concatIndices. simpl.
  destruct first as [|x first]; [done |]. simpl.
  unfold sameIndexTypes, every. simpl.
  rewrite (bool_decide_eq_true_2 _ (eq_sym Hn2)). simpl.
  unfold reduce. simpl. rewrite (bool_decide_eq_true_2 _ Hn1).
  rewrite (concatRangeIndex_progression _ _ _ _ _ _ Hm Hstop Hstep). simpl.
  by rewrite Hn1.
Qed.

(** ** C1: the range index level *)

(** C1 (as amended).  For every pair of non-styled frames whose single
    index level is a synthetic range index with matching type names,
    where the base's level holds at least one entry and the data-type
    check passes, [concatTables] returns a frame whose level is the
    base's level followed by one new value per entry of the addition's
    level, from the base's recorded stop by the recorded step, and
    whose recorded stop is the old stop plus that number of entries
    times the step. *)
Theorem concatTables_extends_range (df1 df2 : Quiver)
    (first second : list Value) (t1 t2 : IndexType) (m1 : JsObject)
    (stop step : Z) :
  styler df1 = None -> styler df2 = None ->
  index df1 = Index.mk [first] [t1] ->
  index df2 = Index.mk [second] [t2] ->
  name t1 = Some RangeIndexName -> name t2 = name t1 ->
  meta t1 = Some m1 ->
  m1 !! "stop" = Some (VNum stop) -> m1 !! "step" = Some (VNum step) ->
  first <> [] ->
  sameDataColumnTypes (Data.type (data df1)) (Data.type (data df2)) = true ->
  exists q,
    concatTables df1 df2 = Ok q /\
    Index.data (index q) = [first ++ progression stop step (length second)] /\
    Index.type (index q) =
      [mkIndexType (Some RangeIndexName)
         (Some (<["stop" := VNum (stop + Z.of_nat (length second) * step)]> m1))].
Proof.
  intros Hs1 Hs2 Hi1 Hi2 Hn1 Hn2 Hm Hstop Hstep Hne Htypes.
  rewrite concatTables_unstyled by done.
  rewrite (isEmptyDf_level0 df1 first) by (by rewrite Hi1).
  rewrite (isEmptyDf_level0 df2 second) by (by rewrite Hi2).
  replace (length first =? 0)%nat with false
    by (destruct first; [done | reflexivity]).
  rewrite andb_false_r. simpl.
  destruct (_ && _ && _) eqn:Hempty.
  - (* the addition is empty: the base comes back as it is *)
    exists df1. split; [done |]. rewrite Hi1. simpl.
    apply andb_true_iff in Hempty as [Hempty _].
    apply andb_true_iff in Hempty as [_ Hsecond].
    apply Nat.eqb_eq in Hsecond. rewrite Hsecond. simpl.
    rewrite app_nil_r, Z.add_0_r, (insert_id m1 "stop" _ Hstop).
    split; [done |]. destruct t1 as [n1 mt1]. simpl in *. by subst.
  - rewrite Hi1, Hi2.
    rewrite (concatIndices_single_range first second t1 t2 m1 stop step)
      by done.
    unfold concatData. rewrite Htypes. simpl. eexists. split; [done |].
    by simpl.
Qed.

(** The frames of the specification's example satisfy the hypotheses. *)
Lemma concatTables_extends_range_witness :
  exists q,
    concatTables threeRows twoRows = Ok q /\
    Index.data (index q) = [map VNum [0; 1; 2] ++ progression 3 1 2] /\
    Index.type (index q) =
      [mkIndexType (Some RangeIndexName)
         (Some (<["stop" := VNum (3 + Z.of_nat 2 * 1)]> (rangeMeta 0 1 3)))].
Proof.
  apply (concatTables_extends_range threeRows twoRows
           (map VNum [0; 1; 2]) (map VNum [0; 1])
           (rangeType 0 1 3) (rangeType 0 1 2) (rangeMeta 0 1 3) 3 1);
    try reflexivity.
  discriminate.
Defined.

(** The example of the specification: ranges [{start:0,step:1,stop:3}]
    and [{start:0,step:1,stop:2}] give the level [0,1,2,3,4] and the
    recorded stop [5]. *)
Example concatTables_range_example :
  concatTables threeRows twoRows =
    Ok (rangeFrame 0 1 5 [0; 1; 2; 3; 4] ["a"]
          [[VNum 10]; [VNum 11]; [VNum 12]; [VNum 20]; [VNum 21]] ["int64"]).
Proof. vm_compute. reflexivity. Qed.

(** C1 as stated fails: a base with a column label and no row is not
    empty, and its index is replaced by the addition's index instead of
    being extended from its own stop. *)
Lemma range_extension_counterexample :
  ~ range_extension_as_stated labelledNoRows rowsFromThree.
Proof.
  intros H.
  destruct (H [] (map VNum [3; 4]) (rangeType 0 1 0) (rangeType 3 1 5)
              (rangeMeta 0 1 0) 0 1)
    as (q & t & m & Hq & Hdata & _); try reflexivity.
  vm_compute in Hq. injection Hq as <-. vm_compute in Hdata. discriminate.
Qed.

(** ** C2: the data-type check *)

Lemma RuntimeTypeError_unspecified (e : JsError) :
  RuntimeTypeError e ->
  ~ (StyledConcatUnsupported e \/ IndexTypeMismatch e \/ DataTypeMismatch e).
Proof.
  intros [-> | ->] [H | [(? & ? & H) | (? & ? & H)]]; discriminate H.
Qed.

(** C2 (as amended).  For every pair of non-empty, non-styled frames,
    [concatTables] fails with [DataTypeMismatch] if and only if the
    index merge succeeds and the base's data-type sequence is not a
    prefix of the addition's: the check compares the tags at the base's
    positions and has no length test, so an addition with more tags
    than the base is accepted. *)
Theorem concatTables_DataTypeMismatch_iff (df1 df2 : Quiver) :
  styler df1 = None -> styler df2 = None ->
  non_empty df1 -> non_empty df2 ->
  (fails_with (concatTables df1 df2) DataTypeMismatch <->
   (exists merged, concatIndices (index df1) (index df2) = Ok merged) /\
   ~ Data.type (data df1) `prefix_of` Data.type (data df2)).
Proof.
  intros Hs1 Hs2 He1 He2. rewrite concatTables_non_empty by done.
  destruct (concatIndices (index df1) (index df2)) as [merged|e] eqn:Hidx;
    simpl.
  - unfold concatData.
    destruct (sameDataColumnTypes _ _) eqn:Hsame; simpl.
    + apply sameDataColumnTypes_prefix in Hsame. split.
      * intros (e & He & _). discriminate He.
      * intros [_ Hn]. done.
    + split.
      * intros _. split; [by eexists |].
        intros Hp. apply sameDataColumnTypes_prefix in Hp. congruence.
      * intros _. eexists. split; [reflexivity |]. by eexists _, _.
  - split.
    + intros (e' & [= <-] & (t1 & t2 & Hd)).
      destruct (concatIndices_throws _ _ _ Hidx) as [-> | (? & ? & ->)];
        discriminate Hd.
    + intros [[merged Hm] _]. discriminate Hm.
Qed.

Lemma concatTables_DataTypeMismatch_iff_witness :
  fails_with (concatTables oneColumn oneUnicodeColumn) DataTypeMismatch <->
  (exists merged,
      concatIndices (index oneColumn) (index oneUnicodeColumn) = Ok merged) /\
  ~ Data.type (data oneColumn) `prefix_of` Data.type (data oneUnicodeColumn).
Proof.
  apply (concatTables_DataTypeMismatch_iff oneColumn oneUnicodeColumn);
    reflexivity.
Defined.

(** The example of the specification: [["int64"]] against [["unicode"]]
    fails with [DataTypeMismatch]. *)
Example concatTables_int64_unicode :
  concatTables oneColumn oneUnicodeColumn =
    Throw (Error (MsgDataType ["int64"] ["unicode"])).
Proof. reflexivity. Qed.

(** C2 as stated fails: [["int64"]] against [["int64","unicode"]]
    differ in length and are concatenated all the same. *)
Lemma data_types_counterexample :
  ~ data_types_as_stated oneColumn twoColumns.
Proof.
  intros H. destruct H as [_ H]; try reflexivity.
  destruct H as (e & He & _); [discriminate |].
  vm_compute in He. discriminate He.
Qed.

(** ** C3: the merged body *)

(** C3 (as amended).  For every pair of non-empty, non-styled frames
    whose index merge succeeds and whose data-type check passes, the
    merged body is the base's rows followed by the addition's rows, each
    cut to its first [n] entries, [n] being the number of the base's
    type tags; a row with fewer than [n] entries is kept as it is, so an
    appended row has the smaller of its own length and [n] entries, and
    exactly [n] when it had at least [n]; the merged data-type sequence
    and column labels are the base's. *)
Theorem concatTables_body (df1 df2 : Quiver) (merged : Index.t) :
  styler df1 = None -> styler df2 = None ->
  non_empty df1 -> non_empty df2 ->
  concatIndices (index df1) (index df2) = Ok merged ->
  sameDataColumnTypes (Data.type (data df1)) (Data.type (data df2)) = true ->
  let n := length (Data.type (data df1)) in
  let appended := map (take n) (Data.data (data df2)) in
  concatTables df1 df2 =
    Ok (mkQuiver merged (columns df1)
          (Data.mk (Data.data (data df1) ++ appended) (Data.type (data df1)))
          None) /\
  Forall2 (fun row row' => length row' = Nat.min (length row) n
                           /\ row' `prefix_of` row)
          (Data.data (data df2)) appended /\
  (Forall (fun row => (n <= length row)%nat) (Data.data (data df2)) ->
   Forall (fun row' => length row' = n) appended).
Proof.
  intros Hs1 Hs2 He1 He2 Hidx Hsame n appended.
  split; [| split].
  - rewrite concatTables_non_empty by done. rewrite Hidx. simpl.
    unfold concatData. by rewrite Hsame.
  - subst appended. induction (Data.data (data df2)) as [|row rows IH];
      simpl; constructor; [| done].
    split; [rewrite length_take; lia | apply prefix_take].
  - intros Hlong. subst appended. apply Forall_map.
    eapply Forall_impl; [exact Hlong |]. intros row Hrow. simpl in *.
    rewrite length_take. subst n. lia.
Qed.

Lemma concatTables_body_witness :
  let n := length (Data.type (data oneColumn)) in
  let appended := map (take n) (Data.data (data twoColumns)) in
  concatTables oneColumn twoColumns =
    Ok (mkQuiver (Index.mk [[VNum 0; VNum 1]] [rangeType 0 1 2])
          (columns oneColumn)
          (Data.mk (Data.data (data oneColumn) ++ appended)
                   (Data.type (data oneColumn)))
          None) /\
  Forall2 (fun row row' => length row' = Nat.min (length row) n
                           /\ row' `prefix_of` row)
          (Data.data (data twoColumns)) appended /\
  (Forall (fun row => (n <= length row)%nat) (Data.data (data twoColumns)) ->
   Forall (fun row' => length row' = n) appended).
Proof.
  apply (concatTables_body oneColumn twoColumns
           (Index.mk [[VNum 0; VNum 1]] [rangeType 0 1 2]));
    vm_compute; reflexivity.
Defined.

(** C3 as stated fails: a row of the addition with fewer entries than
    the base has type tags is appended as it is, not padded. *)
Lemma body_rows_counterexample :
  ~ body_rows_as_stated fullRow shortRow.
Proof.
  intros H. destruct (H eq_refl eq_refl eq_refl eq_refl eq_refl _ eq_refl)
    as (_ & Hrows & _).
  vm_compute in Hrows.
  apply Forall_cons in Hrows as [_ Hrows].
  apply Forall_cons in Hrows as [Hrow _]. discriminate Hrow.
Qed.

(** ** C4: an empty frame on one side *)

(** C4 (as amended).  For every non-styled frame [F] that is
    structurally empty and every non-styled frame [G],
    [concatTables F G] returns [G] unchanged, and [concatTables G F]
    returns [G] unchanged whenever [G] is not itself empty; when [G] is
    structurally empty too, [concatTables G F] returns [F]. *)
Theorem concatTables_empty_side (F G : Quiver) :
  styler F = None -> styler G = None -> structurally_empty F ->
  concatTables F G = Ok G /\
  (non_empty G -> concatTables G F = Ok G) /\
  (structurally_empty G -> concatTables G F = Ok F).
Proof.
  intros HF HG Hempty. apply isEmptyDf_true_iff in Hempty.
  split; [| split].
  - rewrite concatTables_unstyled by done. by rewrite Hempty.
  - intros HnG. rewrite concatTables_unstyled by done.
    unfold non_empty in HnG. by rewrite HnG, Hempty.
  - intros HeG. apply isEmptyDf_true_iff in HeG.
    rewrite concatTables_unstyled by done. by rewrite HeG.
Qed.

Lemma concatTables_empty_side_witness :
  concatTables emptyRange threeRows = Ok threeRows /\
  (non_empty threeRows -> concatTables threeRows emptyRange = Ok threeRows) /\
  (structurally_empty threeRows ->
   concatTables threeRows emptyRange = Ok emptyRange).
Proof.
  apply (concatTables_empty_side emptyRange threeRows); try reflexivity.
  repeat split; reflexivity.
Defined.

(** C4 as stated fails: with two structurally empty frames the test of
    the first argument wins, and the second argument is returned. *)
Lemma empty_side_counterexample :
  ~ empty_side_as_stated emptyRange emptyUnicode.
Proof.
  intros H. destruct H as [_ H]; try reflexivity.
  - repeat split; reflexivity.
  - vm_compute in H. discriminate H.
Qed.

(** ** C10: frames without an index level *)

Lemma isEmptyDf_throws (df : Quiver) (e : JsError) :
  isEmptyDf df = Throw e -> e = typeError.
Proof.
  unfold isEmptyDf. repeat (case_match; try done). congruence.
Qed.

(** C10 (as amended).  The emptiness test reads the first index level
    of a frame only when that frame has no data row, and tests the
    addition only when the base is not empty.  For non-styled frames,
    when the base has zero index levels and the addition is not
    structurally empty, or when the base is not empty and the addition
    has zero index levels and zero data rows, [concatTables] returns no
    frame and raises none of the specified concatenation errors: it
    fails with the engine's type error on the missing level. *)
Theorem concatTables_missing_level (df1 df2 : Quiver) :
  styler df1 = None -> styler df2 = None ->
  (Index.data (index df1) = [] /\ isEmptyDf df2 <> Ok true) \/
  (non_empty df1 /\ Index.data (index df2) = [] /\ Data.data (data df2) = []) ->
  (forall q, concatTables df1 df2 <> Ok q) /\
  ~ fails_with (concatTables df1 df2)
      (fun e => StyledConcatUnsupported e \/ IndexTypeMismatch e
                \/ DataTypeMismatch e) /\
  fails_with (concatTables df1 df2) RuntimeTypeError.
Proof.
  intros Hs1 Hs2 Hcase.
  assert (fails_with (concatTables df1 df2) RuntimeTypeError) as Hfail.
  { rewrite concatTables_unstyled by done.
    destruct Hcase as [[Hlevels Hne] | (Hne & Hlevels & Hrows)].
    - rewrite (isEmptyDf_no_level df1 Hlevels).
      destruct (length (Data.data (data df1)) =? 0)%nat; simpl.
      + exists typeError. split; [done | by left].
      + destruct (isEmptyDf df2) as [[|]|e] eqn:He2; simpl.
        * done.
        * unfold concatIndices. rewrite Hlevels. simpl.
          exists (Error MsgEngine). split; [done | by right].
        * apply isEmptyDf_throws in He2 as ->.
          exists typeError. split; [done | by left].
    - unfold non_empty in Hne. rewrite Hne. simpl.
      rewrite (isEmptyDf_no_level df2 Hlevels), Hrows. simpl.
      exists typeError. split; [done | by left]. }
  destruct Hfail as (e & He & Hrt). split; [| split].
  - intros q Hq. congruence.
  - intros (e' & He' & Hspec).
    apply (RuntimeTypeError_unspecified e Hrt). congruence.
  - by exists e.
Qed.

Lemma concatTables_missing_level_witness :
  (forall q, concatTables noIndexLevel oneColumn <> Ok q) /\
  ~ fails_with (concatTables noIndexLevel oneColumn)
      (fun e => StyledConcatUnsupported e \/ IndexTypeMismatch e
                \/ DataTypeMismatch e) /\
  fails_with (concatTables noIndexLevel oneColumn) RuntimeTypeError.
Proof.
  apply (concatTables_missing_level noIndexLevel oneColumn);
    [reflexivity | reflexivity |].
  left. split; [reflexivity | vm_compute; discriminate].
Defined.

(** C10 as stated fails: an addition with data rows and no index level
    is not read by the emptiness test, and the merge stops on the
    specified [IndexTypeMismatch]. *)
Lemma zero_levels_counterexample :
  ~ zero_levels_as_stated oneColumn noIndexLevel.
Proof.
  intros H. destruct H as [_ H]; [by right |].
  apply H. eexists. split; [vm_compute; reflexivity |].
  right. left. by eexists _, _.
Qed.

(** ** C7: dimensions *)

Lemma dimensions_cases (q : Quiver) :
  let dataRows := bodyRows q in
  let dataColumns :=
    if (bodyRows q =? 0)%nat then labelColumns q else bodyColumns q in
  let headerRows :=
    if (length (columns q) =? 0)%nat then 1%nat else length (columns q) in
  let headerColumns := length (Index.data (index q)) in
  dimensions q =
    if (negb (dataRows =? 0)%nat && negb (dataRows =? indexRows q)%nat)
       || (negb (dataColumns =? 0)%nat && negb (dataColumns =? labelColumns q)%nat)
    then Throw (Error (MsgDimensions dataRows (indexRows q)
                                     dataColumns (labelColumns q)))
    else Ok (TableDimensions.mk headerRows headerColumns dataRows dataColumns
               (headerRows + dataRows) (headerColumns + dataColumns)).
Proof.
  unfold dimensions, indexShape, columnsShape, dataShape,
    bodyRows, bodyColumns, indexRows, labelColumns.
  destruct (Index.data (index q)) as [|level0 levels];
    destruct (columns q) as [|labels0 labels];
    destruct (Data.data (data q)) as [|row0 rows]; reflexivity.
Qed.

Lemma dimensions_throws_iff (q : Quiver) :
  fails_with (dimensions q) DimensionMismatch <->
  bodyRows q <> 0%nat /\
  (bodyRows q <> indexRows q
   \/ (bodyColumns q <> 0%nat /\ bodyColumns q <> labelColumns q)).
Proof.
  rewrite dimensions_cases. cbv zeta.
  destruct (bodyRows q =? 0)%nat eqn:Hrows.
  - apply Nat.eqb_eq in Hrows. rewrite Hrows, Nat.eqb_refl. simpl.
    rewrite andb_false_r. split.
    + intros (e & He & _). discriminate He.
    + intros [? _]. done.
  - apply Nat.eqb_neq in Hrows. simpl.
    destruct (bodyRows q =? indexRows q)%nat eqn:Hcheck;
      [apply Nat.eqb_eq in Hcheck | apply Nat.eqb_neq in Hcheck]; simpl.
    + destruct (bodyColumns q =? 0)%nat eqn:Hcols;
        [apply Nat.eqb_eq in Hcols | apply Nat.eqb_neq in Hcols]; simpl.
      * split; [intros (e & He & _); discriminate He | lia].
      * destruct (bodyColumns q =? labelColumns q)%nat eqn:Hlabels;
          [apply Nat.eqb_eq in Hlabels | apply Nat.eqb_neq in Hlabels]; simpl.
        -- split; [intros (e & He & _); discriminate He | lia].
        -- split; [lia |]. intros _. eexists. split; [done |].
           by eexists _, _, _, _.
    + split; [lia |]. intros _. eexists. split; [done |].
      by eexists _, _, _, _.
Qed.

Lemma dimensions_Ok_inv (q : Quiver) (d : TableDimensions.t) :
  dimensions q = Ok d ->
  TableDimensions.headerRows d = Nat.max 1 (length (columns q)) /\
  TableDimensions.headerColumns d = length (Index.data (index q)) /\
  TableDimensions.dataRows d = bodyRows q /\
  TableDimensions.dataColumns d =
    (if (bodyRows q =? 0)%nat then labelColumns q else bodyColumns q) /\
  TableDimensions.rows d =
    (TableDimensions.headerRows d + TableDimensions.dataRows d)%nat /\
  TableDimensions.columns d =
    (TableDimensions.headerColumns d + TableDimensions.dataColumns d)%nat /\
  (TableDimensions.dataColumns d = 0%nat
   \/ TableDimensions.dataColumns d = labelColumns q).
Proof.
  rewrite dimensions_cases. cbv zeta.
  destruct (_ || _) eqn:Hthrow; [done |].
  intros [= <-]. simpl.
  apply orb_false_iff in Hthrow as [_ Hcols].
  repeat split; try done.
  - destruct (columns q); simpl; lia.
  - destruct (_ =? 0)%nat eqn:H0 in Hcols; simpl in Hcols.
    + left. by apply Nat.eqb_eq.
    + right. apply negb_false_iff in Hcols. by apply Nat.eqb_eq.
Qed.

(** C7.  Whenever the dimensions computation does not raise, the
    dimensions it returns satisfy [rows = headerRows + dataRows] and
    [columns = headerColumns + dataColumns], with [headerColumns] the
    number of index levels, [headerRows] the number of column-label
    levels (1 when there are none), [dataRows] the number of body rows
    and [dataColumns] the entries of the first body row (the
    columns-derived count when the body has no row).  The computation
    either returns or raises a dimension mismatch, and it raises exactly
    when the body has at least one row and either the number of rows is
    not the index-derived count, or the first row has at least one entry
    and their number is not the columns-derived count.  A body with
    rows whose first row has no entry is never compared with the column
    labels: when its row count is the index-derived one, the dimensions
    are returned with [dataColumns = 0]. *)
Theorem dimensions_consistent (q : Quiver) :
  (forall d, dimensions q = Ok d ->
     TableDimensions.rows d =
       (TableDimensions.headerRows d + TableDimensions.dataRows d)%nat /\
     TableDimensions.columns d =
       (TableDimensions.headerColumns d + TableDimensions.dataColumns d)%nat /\
     TableDimensions.headerColumns d = length (Index.data (index q)) /\
     TableDimensions.headerRows d = Nat.max 1 (length (columns q)) /\
     TableDimensions.dataRows d = bodyRows q /\
     TableDimensions.dataColumns d =
       (if (bodyRows q =? 0)%nat then labelColumns q else bodyColumns q)) /\
  ((exists d, dimensions q = Ok d)
   \/ fails_with (dimensions q) DimensionMismatch) /\
  (fails_with (dimensions q) DimensionMismatch <->
   bodyRows q <> 0%nat /\
   (bodyRows q <> indexRows q
    \/ (bodyColumns q <> 0%nat /\ bodyColumns q <> labelColumns q))) /\
  (bodyRows q <> 0%nat -> bodyRows q = indexRows q ->
   bodyColumns q = 0%nat ->
   exists d, dimensions q = Ok d /\
             TableDimensions.dataRows d = indexRows q /\
             TableDimensions.dataColumns d = 0%nat).
Proof.
  split; [| split; [| split]].
  - intros d Hd. apply dimensions_Ok_inv in Hd. tauto.
  - rewrite dimensions_cases. cbv zeta. destruct (_ || _).
    + right. eexists. split; [done |]. by eexists _, _, _, _.
    + left. by eexists.
  - apply dimensions_throws_iff.
  - intros Hrows Hcheck Hcols. rewrite dimensions_cases. cbv zeta.
    apply Nat.eqb_neq in Hrows. rewrite Hrows, Hcols.
    rewrite <- Hcheck, Nat.eqb_refl. simpl.
    eexists. split; [reflexivity |]. done.
Qed.

Lemma dimensions_consistent_witness :
  exists d, dimensions zeroWidthRows = Ok d /\
            TableDimensions.dataRows d = indexRows zeroWidthRows /\
            TableDimensions.dataColumns d = 0%nat.
Proof.
  apply (dimensions_consistent zeroWidthRows).
  - vm_compute. lia.
  - reflexivity.
  - reflexivity.
Defined.

(** The frame of the counterexample is one the code produces: appending
    two rows to a frame with a column label and no row. *)
Example concatTables_zeroWidthRows :
  concatTables labelledNoRows rowsFromThree = Ok zeroWidthRows.
Proof. reflexivity. Qed.

(** Its dimensions are computed: one header row, one header column, two
    body rows and no body column, under one column label. *)
Example dimensions_zeroWidthRows :
  dimensions zeroWidthRows = Ok (TableDimensions.mk 1 1 2 0 3 1) /\
  bodyColumns zeroWidthRows = 0%nat /\ labelColumns zeroWidthRows = 1%nat.
Proof. split_and!; reflexivity. Qed.

(** C7 as stated fails: a body of two rows without entries disagrees
    with the columns-derived count of one column, and no error is
    raised. *)
Lemma zero_width_counterexample :
  ~ dimensions_as_stated zeroWidthRows.
Proof.
  intros [_ Hraise].
  destruct Hraise as (e & He & _).
  - vm_compute. lia.
  - right. vm_compute. lia.
  - vm_compute in He. discriminate He.
Qed.

(** The dimensions of the three-row example: one header row, one header
    column, three body rows, one body column. *)
Example dimensions_threeRows :
  dimensions threeRows = Ok (TableDimensions.mk 1 1 3 1 4 2).
Proof. reflexivity. Qed.

(** A body whose rows disagree with the index is refused. *)
Example dimensions_mismatch :
  dimensions (rangeFrame 0 1 1 [0] ["a"] [[VNum 1]; [VNum 2]] ["int64"]) =
    Throw (Error (MsgDimensions 2 1 1 1)).
Proof. reflexivity. Qed.

(** ** C5 and C6: cell addressing *)

(** Case split on the integer tests of [getCell]. *)
Ltac split_tests :=
  repeat match goal with
    | |- context [?a <? ?b] => destruct (Z.ltb_spec a b)
    | |- context [?a >=? ?b] => rewrite (Z.geb_leb a b)
    | |- context [?a >? ?b] => rewrite (Z.gtb_ltb a b)
    | |- context [?a <=? ?b] => destruct (Z.leb_spec a b)
    end; simpl.

Lemma regionType_cases d r c :
  let hr := Z.of_nat (TableDimensions.headerRows d) in
  let hc := Z.of_nat (TableDimensions.headerColumns d) in
  (r < hr -> c < hc -> regionType d r c = TableCellType.blank) /\
  (hr <= r -> c < hc -> regionType d r c = TableCellType.index) /\
  (r < hr -> hc <= c -> regionType d r c = TableCellType.columns) /\
  (hr <= r -> hc <= c -> regionType d r c = TableCellType.data).
Proof.
  cbv zeta. unfold regionType. split_tests; repeat split; intros; try reflexivity; lia.
Qed.

Section CellProperties.

Variable fmt : Value -> option string -> string.

Lemma getCell_out_of_grid q d r c :
  dimensions q = Ok d -> ~ in_grid d r c ->
  fails_with (getCell fmt q r c) IndexOutOfRange.
Proof.
  intros Hd Hout. destruct q as [idx cols dat sty]. cbn [getCell]. rewrite Hd.
  unfold in_grid in Hout.
  destruct (Z.ltb_spec r 0); simpl.
  { eexists; split; [done | by left]. }
  rewrite (Z.geb_leb r). destruct (Z.leb_spec (Z.of_nat (TableDimensions.rows d)) r); simpl.
  { eexists; split; [done | by left]. }
  destruct (Z.ltb_spec c 0); simpl.
  { eexists; split; [done | by right]. }
  rewrite (Z.geb_leb c). destruct (Z.leb_spec (Z.of_nat (TableDimensions.columns d)) c); simpl.
  { eexists; split; [done | by right]. }
  lia.
Qed.


Lemma at_index_is_Some {A} (l : list A) (i : Z) :
  0 <= i < Z.of_nat (length l) -> is_Some (at_index l i).
Proof.
  intros Hi. unfold at_index. destruct (Z.ltb_spec i 0); [lia |].
  apply lookup_lt_is_Some. lia.
Qed.

Lemma getCell_returns q d r c :
  dimensions q = Ok d -> in_grid d r c ->
  (regionType d r c = TableCellType.index ->
   (length (Index.data (index q)) <= length (Index.type (index q)))%nat) ->
  (regionType d r c = TableCellType.data -> has_displayValues q = false) ->
  exists cell, getCell fmt q r c = Ok cell.
Proof.
  intros Hd [Hr Hc] Htypes Hvalues.
  destruct (dimensions_Ok_inv q d Hd) as (Hhr & Hhc & Hdr & Hdc & Hrows & Hcols & Hdc0).
  destruct (regionType_cases d r c) as (Hb & Hi & Hcl & Hdt). cbv zeta in *.
  destruct q as [idx cols dat sty]. cbn [getCell]. rewrite Hd.
  simpl in Htypes, Hvalues, Hhr, Hhc.
  split_tests; try lia;
    lazymatch goal with
    | |- context [at_index (Index.type idx) c] =>
        destruct (at_index_is_Some (Index.type idx) c) as [t Ht];
          [specialize (Htypes (Hi ltac:(lia) ltac:(lia))); lia |];
        destruct (at_index_is_Some (Index.data idx) c) as [level Hlevel];
          [lia |];
        rewrite Ht, Hlevel; by eexists
    | |- context [at_index cols r] =>
        destruct (at_index_is_Some cols r) as [labels Hlabels];
          [destruct cols as [|labels0 cols];
             [unfold labelColumns in Hdc0; simpl in Hdc0; lia
             | simpl in *; lia]
          |];
        rewrite Hlabels; by eexists
    | |- context [at_index (Data.data dat) ?i] =>
        specialize (Hvalues (Hdt ltac:(lia) ltac:(lia)));
        destruct (at_index_is_Some (Data.data dat) i) as [row Hrow];
          [unfold bodyRows in Hdr; simpl in Hdr; lia |];
        unfold has_displayValues in Hvalues;
        destruct sty as [[u cap st [values|]]|]; [done | |];
          simpl; rewrite Hrow; by eexists
    | |- _ => by eexists
    end.
Qed.

Lemma getCell_in_grid_throws q d r c e :
  dimensions q = Ok d -> in_grid d r c -> has_displayValues q = false ->
  getCell fmt q r c = Throw e -> e = typeError.
Proof.
  intros Hd [Hr Hc] Hvalues. destruct q as [idx cols dat sty]. cbn [getCell]. rewrite Hd.
  unfold has_displayValues in Hvalues.
  split_tests; try lia; intros Hcell; destruct sty as [[u cap st [values|]]|]; try done;
  repeat case_match; simplify_eq; done.
Qed.


(** C6 (as amended).  For every frame whose dimensions are computed,
    [getCell] fails with [IndexOutOfRange] whenever the row is negative
    or not below the total of grid rows, or the column is negative or
    not below the total of grid columns.  When the frame carries no
    display values, it fails with [IndexOutOfRange] in these cases
    only, and, the index having a type for each of its levels, it
    returns a cell for every coordinate pair inside the grid.  (With
    display values, a body cell takes its content from the display
    values' own [getCell], whose failure is passed on.)  [getCell] only
    reads the frame: in the embedding it has no state to change. *)
Theorem getCell_out_of_range (q : Quiver) (d : TableDimensions.t) (r c : Z) :
  dimensions q = Ok d ->
  let outside :=
    r < 0 \/ Z.of_nat (TableDimensions.rows d) <= r
    \/ c < 0 \/ Z.of_nat (TableDimensions.columns d) <= c in
  (outside -> fails_with (getCell fmt q r c) IndexOutOfRange) /\
  (has_displayValues q = false ->
   (fails_with (getCell fmt q r c) IndexOutOfRange <-> outside)) /\
  (has_displayValues q = false ->
   (length (Index.data (index q)) <= length (Index.type (index q)))%nat ->
   ~ outside -> exists cell, getCell fmt q r c = Ok cell).
Proof.
  intros Hd outside. subst outside.
  assert (forall P : Prop,
             (r < 0 \/ Z.of_nat (TableDimensions.rows d) <= r
              \/ c < 0 \/ Z.of_nat (TableDimensions.columns d) <= c -> P) ->
             (in_grid d r c -> P) -> P) as Hcases.
  { intros P Hout Hin. unfold in_grid in Hin.
    destruct (Z.lt_ge_cases r 0); [tauto |].
    destruct (Z.le_gt_cases (Z.of_nat (TableDimensions.rows d)) r); [tauto |].
    destruct (Z.lt_ge_cases c 0); [tauto |].
    destruct (Z.le_gt_cases (Z.of_nat (TableDimensions.columns d)) c);
      [tauto |].
    apply Hin. lia. }
  split; [| split].
  - intros Hout. apply (getCell_out_of_grid q d r c Hd).
    unfold in_grid. lia.
  - intros Hvalues. split.
    + intros (e & He & Hrange). apply Hcases; [done |]. intros Hgrid.
      rewrite (getCell_in_grid_throws q d r c e Hd Hgrid Hvalues He) in Hrange.
      destruct Hrange as [Hrange | Hrange]; discriminate Hrange.
    + intros Hout. apply (getCell_out_of_grid q d r c Hd).
      unfold in_grid. lia.
  - intros Hvalues Htypes Hin. apply (getCell_returns q d r c Hd).
    + unfold in_grid. lia.
    + done.
    + done.
Qed.

End CellProperties.


Lemma getCell_out_of_range_witness :
  let d := TableDimensions.mk 1 1 3 1 4 2 in
  let outside :=
    4 < 0 \/ Z.of_nat (TableDimensions.rows d) <= 4
    \/ 0 < 0 \/ Z.of_nat (TableDimensions.columns d) <= 0 in
  (outside -> fails_with (getCell plainFormat threeRows 4 0) IndexOutOfRange) /\
  (has_displayValues threeRows = false ->
   (fails_with (getCell plainFormat threeRows 4 0) IndexOutOfRange
    <-> outside)) /\
  (has_displayValues threeRows = false ->
   (length (Index.data (index threeRows))
    <= length (Index.type (index threeRows)))%nat ->
   ~ outside -> exists cell, getCell plainFormat threeRows 4 0 = Ok cell).
Proof.
  apply (getCell_out_of_range plainFormat threeRows
           (TableDimensions.mk 1 1 3 1 4 2) 4 0).
  reflexivity.
Defined.

(** The four cells of the one-cell frame, and the four positions just
    outside its corners. *)
Example getCell_oneCell :
  map (fun r => match r with
                | Ok cell => Some (TableCell.type cell)
                | Throw _ => None
                end)
      [getCell plainFormat oneCell 0 0; getCell plainFormat oneCell 1 0;
       getCell plainFormat oneCell 0 1; getCell plainFormat oneCell 1 1]
  = [Some TableCellType.blank; Some TableCellType.index;
     Some TableCellType.columns; Some TableCellType.data].
Proof. reflexivity. Qed.

Example getCell_corners :
  [getCell plainFormat oneCell (-1) (-1); getCell plainFormat oneCell (-1) 2;
   getCell plainFormat oneCell 2 (-1); getCell plainFormat oneCell 2 2;
   getCell plainFormat oneCell 0 2; getCell plainFormat oneCell 0 (-1)]
  = [Throw (Error MsgRowOutOfRange); Throw (Error MsgRowOutOfRange);
     Throw (Error MsgRowOutOfRange); Throw (Error MsgRowOutOfRange);
     Throw (Error MsgColumnOutOfRange); Throw (Error MsgColumnOutOfRange)].
Proof. reflexivity. Qed.

(** The cells of the three-row frame, with their class names. *)
Example getCell_threeRows :
  getCell plainFormat threeRows 0 0
    = Ok (TableCell.mk TableCellType.blank None "blank" (VStr "")) /\
  getCell plainFormat threeRows 2 0
    = Ok (TableCell.mk TableCellType.index None
            "row_heading level0 row1" (VStr "1")) /\
  getCell plainFormat threeRows 0 1
    = Ok (TableCell.mk TableCellType.columns None
            "col_heading level0 col0" (VStr "a")) /\
  getCell plainFormat threeRows 2 1
    = Ok (TableCell.mk TableCellType.data None "data row1 col0" (VStr "11")).
Proof. repeat split. Qed.

(** With a styling identifier and no display values, index and body
    cells carry an identifier. *)
Example getCell_identifier :
  let styled :=
    mkQuiver (index oneCell) (columns oneCell) (data oneCell)
             (Some (mkStyler (Some "x") None None None)) in
  TableCell.id <$> (match getCell plainFormat styled 1 1 with
                    | Ok cell => Some cell
                    | Throw _ => None
                    end) = Some (Some "T_xrow0_col0") /\
  TableCell.id <$> (match getCell plainFormat styled 1 0 with
                    | Ok cell => Some cell
                    | Throw _ => None
                    end) = Some (Some "T_xlevel0_row0").
Proof. split; reflexivity. Qed.

(** C6 as stated fails: with display values of fewer rows than the
    frame, the body cell of the frame is inside the grid and the query
    still fails with the row error of the display values. *)
Lemma getCell_range_counterexample :
  ~ getCell_range_as_stated oneCellStyled.
Proof.
  intros H.
  destruct (H plainFormat (TableDimensions.mk 1 1 1 1 2 2) 1 1 eq_refl)
    as [_ Hreturns].
  destruct Hreturns as [cell Hcell].
  - unfold in_grid. simpl. lia.
  - vm_compute in Hcell. discriminate Hcell.
Qed.

(** ** C9: the comparator *)

Section ComparatorProperties.

Variable collate : string -> CollatorOptions -> string -> string -> Z.
Variable strnum : string -> option Z.

Lemma js_lt_asym (a b : Value) :
  js_lt strnum a b = true -> js_lt strnum b a = false.
Proof.
  assert (forall s s', String.ltb s s' = true -> String.ltb s' s = false)
    as Hstr.
  { intros s s'. unfold String.ltb. rewrite (String.compare_antisym s s').
    by destruct (String.compare s' s). }
  destruct a as [x| |s| |], b as [y| |s'| |]; simpl; try apply Hstr;
    repeat match goal with
      | |- context [strnum ?s] => destruct (strnum s)
      end;
    try done; intros H; apply Z.ltb_lt in H; apply Z.ltb_ge; lia.
Qed.

Lemma compareAny_cases (a b : Value) :
  (js_lt strnum a b = true -> compareAny strnum a b = -1) /\
  (js_gt strnum a b = true -> compareAny strnum a b = 1) /\
  (js_lt strnum a b = false -> js_gt strnum a b = false ->
   compareAny strnum a b = 0).
Proof.
  unfold compareAny, js_gt. repeat split.
  - by intros ->.
  - intros Hgt. rewrite (js_lt_asym b a Hgt). by rewrite Hgt.
  - by intros -> ->.
Qed.

(** C9.  [compareValues] returns one of -1, 0 and 1.  For every type
    tag other than ["unicode"] it returns -1 when [a < b] in the
    language's order of the two values, 1 when [a > b], and 0
    otherwise, so that comparing 1 with 2 as ["int64"] is negative and
    2 with 1 positive.  For the ["unicode"] tag it is the collation of
    the two strings by the collator of locale ["en"] without numeric
    ordering and at base sensitivity, so that two strings that differ
    only in case compare equal, ["Apple"] and ["apple"] among them.
    The collator is the runtime's: it is assumed to return a sign and,
    at base sensitivity, to ignore case. *)
Theorem compareValues_sign :
  collator_sign collate -> collator_base_ignores_case collate ->
  (forall a b type,
      compareValues collate strnum a b type = -1
      \/ compareValues collate strnum a b type = 0
      \/ compareValues collate strnum a b type = 1) /\
  (forall a b type, type <> "unicode" ->
      (js_lt strnum a b = true -> compareValues collate strnum a b type = -1) /\
      (js_gt strnum a b = true -> compareValues collate strnum a b type = 1) /\
      (js_lt strnum a b = false -> js_gt strnum a b = false ->
       compareValues collate strnum a b type = 0)) /\
  compareValues collate strnum (VNum 1) (VNum 2) "int64" < 0 /\
  compareValues collate strnum (VNum 2) (VNum 1) "int64" > 0 /\
  (forall a b,
      compareValues collate strnum a b "unicode" =
        collate "en" (mkCollatorOptions false SensBase)
                (ToString a) (ToString b)) /\
  (forall s s', lower s = lower s' ->
      compareValues collate strnum (VStr s) (VStr s') "unicode" = 0) /\
  compareValues collate strnum (VStr "Apple") (VStr "apple") "unicode" = 0.
Proof.
  intros Hsign Hbase.
  assert (forall s s', lower s = lower s' ->
            compareValues collate strnum (VStr s) (VStr s') "unicode" = 0)
    as Hcase.
  { intros s s' Hlower. unfold compareValues, compareStrings. simpl.
    by apply Hbase. }
  split_and!.
  - intros a b type. unfold compareValues. case_bool_decide.
    + apply Hsign.
    + unfold compareAny. destruct (js_lt strnum a b); [by left |].
      destruct (js_gt strnum a b); [by right; right | by right; left].
  - intros a b type Htype. unfold compareValues.
    rewrite bool_decide_eq_false_2 by done. apply compareAny_cases.
  - reflexivity.
  - reflexivity.
  - done.
  - exact Hcase.
  - by apply Hcase.
Qed.

End ComparatorProperties.

Lemma foldingCollator_sign : collator_sign foldingCollator.
Proof.
  intros locale options a b. unfold foldingCollator.
  destruct (String.compare _ _); auto.
Qed.

Lemma string_compare_refl (s : string) : String.compare s s = Eq.
Proof.
  pose proof (String.compare_antisym s s) as H.
  destruct (String.compare s s); simpl in H; congruence.
Qed.

Lemma foldingCollator_base : collator_base_ignores_case foldingCollator.
Proof.
  intros locale options a b Hbase Hlower. unfold foldingCollator.
  rewrite Hbase, Hlower.
  by rewrite string_compare_refl.
Qed.

Lemma compareValues_sign_witness :
  let collate := foldingCollator in
  let strnum := fun _ : string => @None Z in
  (forall a b type,
      compareValues collate strnum a b type = -1
      \/ compareValues collate strnum a b type = 0
      \/ compareValues collate strnum a b type = 1) /\
  (forall a b type, type <> "unicode" ->
      (js_lt strnum a b = true -> compareValues collate strnum a b type = -1) /\
      (js_gt strnum a b = true -> compareValues collate strnum a b type = 1) /\
      (js_lt strnum a b = false -> js_gt strnum a b = false ->
       compareValues collate strnum a b type = 0)) /\
  compareValues collate strnum (VNum 1) (VNum 2) "int64" < 0 /\
  compareValues collate strnum (VNum 2) (VNum 1) "int64" > 0 /\
  (forall a b,
      compareValues collate strnum a b "unicode" =
        collate "en" (mkCollatorOptions false SensBase)
                (ToString a) (ToString b)) /\
  (forall s s', lower s = lower s' ->
      compareValues collate strnum (VStr s) (VStr s') "unicode" = 0) /\
  compareValues collate strnum (VStr "Apple") (VStr "apple") "unicode" = 0.
Proof.
  apply (compareValues_sign foldingCollator (fun _ => None)).
  - exact foldingCollator_sign.
  - exact foldingCollator_base.
Defined.

(** The three comparisons of the specification, with the example
    collator. *)
Example compareValues_examples :
  compareValues foldingCollator (fun _ => None)
                (VStr "Apple") (VStr "apple") "unicode" = 0 /\
  compareValues foldingCollator (fun _ => None) (VNum 1) (VNum 2) "int64" = -1 /\
  compareValues foldingCollator (fun _ => None) (VNum 2) (VNum 1) "int64" = 1 /\
  compareValues foldingCollator (fun _ => None)
                (VStr "pear") (VStr "apple") "object" = 1.
Proof. repeat split. Qed.

(** ** C8: the schema entry *)

Lemma mapM_throws {A B} (f : A -> result B) (P : JsError -> Prop) :
  (forall x e, f x = Throw e -> P e) ->
  forall l e, mapM f l = Throw e -> P e.
Proof.
  intros Hf. induction l as [|x l IH]; intros e; simpl; [done |].
  destruct (f x) as [y|e'] eqn:Hfx; simpl.
  - destruct (mapM f l) as [ys|e'']; simpl; [done |].
    intros [= <-]. by apply IH.
  - intros [= <-]. by eapply Hf.
Qed.

Section ParserProperties.

Variable Table_from : option Uint8Array -> result Table.
Variable JSON_parse_schema : string -> option Schema.
Variable JSON_parse_label : string -> option (list Value).

Lemma getSchema_missing (table : Table) :
  schema_metadata table !! "pandas" = None ->
  getSchema JSON_parse_schema table = Throw (Error MsgSchemaMissing).
Proof. intros H. unfold getSchema. by rewrite H. Qed.

Lemma getSchema_present (table : Table) (s : string) :
  schema_metadata table !! "pandas" = Some s ->
  getSchema JSON_parse_schema table =
    match JSON_parse_schema s with
    | Some parsed => Ok parsed
    | None => Throw syntaxError
    end.
Proof. intros H. unfold getSchema. by rewrite H. Qed.

Lemma getColumns_throws (schema : Schema) (e : JsError) :
  getColumns JSON_parse_label schema = Throw e -> e = syntaxError.
Proof.
  unfold getColumns.
  destruct (mapM _ _) as [groups|e'] eqn:Hgroups; simpl; [done |].
  intros [= <-]. revert Hgroups.
  apply (mapM_throws _ (fun e => e = syntaxError)).
  intros fieldName e. repeat case_match; congruence.
Qed.

Lemma getIndex_throws (table : Table) (schema : Schema) (e : JsError) :
  getIndex table schema = Throw e -> e = typeError.
Proof.
  unfold getIndex. apply (mapM_throws _ (fun e => e = typeError)).
  intros [f|r] e'; [| done].
  unfold getColumnData. destruct (getColumn table f); congruence.
Qed.

Lemma parseTableWith_throws nested element (e : JsError) :
  parseTableWith Table_from JSON_parse_schema JSON_parse_label nested element
    = Throw e ->
  exists n m, e = Error (MsgStringOf n m).
Proof.
  unfold parseTableWith, try_catch. case_match; [done |].
  intros [= <-]. by eexists _, _.
Qed.

(** C8.  When the metadata map of the payload's table has no entry
    under ["pandas"], [parseTable] fails with the schema-missing error
    (it throws; no frame is returned); when the entry is there,
    [getSchema] goes on to parse it and [parseTable] does not fail with
    the schema-missing error. *)
Theorem parseTable_schema_entry (element : option IArrow) (table : Table) :
  Table_from (element ≫= arrow_data) = Ok table ->
  (schema_metadata table !! "pandas" = None ->
   parseTable Table_from JSON_parse_schema JSON_parse_label element
     = Throw SchemaMissing) /\
  (forall s, schema_metadata table !! "pandas" = Some s ->
     getSchema JSON_parse_schema table =
       match JSON_parse_schema s with
       | Some parsed => Ok parsed
       | None => Throw syntaxError
       end /\
     getSchema JSON_parse_schema table <> Throw (Error MsgSchemaMissing) /\
     parseTable Table_from JSON_parse_schema JSON_parse_label element
       <> Throw SchemaMissing).
Proof.
  intros Htable. split.
  - intros Hnone. unfold parseTable, parseTableWith at 1.
    rewrite Htable. simpl. by rewrite (getSchema_missing table Hnone).
  - intros s Hsome. rewrite (getSchema_present table s Hsome).
    split; [done |]. split; [by destruct (JSON_parse_schema s) |].
    unfold parseTable, parseTableWith at 1. rewrite Htable. simpl.
    rewrite (getSchema_present table s Hsome).
    destruct (JSON_parse_schema s) as [schema|]; simpl; [| done].
    destruct (getColumns JSON_parse_label schema) as [columns|e] eqn:Hcols;
      simpl.
    2: { apply getColumns_throws in Hcols as ->. done. }
    destruct (getIndex table schema) as [indexData|e] eqn:Hindex; simpl.
    2: { apply getIndex_throws in Hindex as ->. done. }
    destruct (element ≫= arrow_styler) as [tableStyler|]; simpl; [| done].
    destruct (parseTableWith _ _ _ _ _) as [values|e] eqn:Hnested; simpl;
      [done |].
    apply parseTableWith_throws in Hnested as (n & m & ->). done.
Qed.

End ParserProperties.

Lemma parseTable_schema_entry_witness :
  (schema_metadata emptyTable !! "pandas" = None ->
   parseTable (fun _ => Ok emptyTable) (fun _ => None) (fun _ => None) None
     = Throw SchemaMissing) /\
  (forall s, schema_metadata emptyTable !! "pandas" = Some s ->
     getSchema (fun _ => None) emptyTable =
       match (fun _ : string => @None Schema) s with
       | Some parsed => Ok parsed
       | None => Throw syntaxError
       end /\
     getSchema (fun _ => None) emptyTable <> Throw (Error MsgSchemaMissing) /\
     parseTable (fun _ => Ok emptyTable) (fun _ => None) (fun _ => None) None
       <> Throw SchemaMissing).
Proof.
  apply (parseTable_schema_entry (fun _ => Ok emptyTable) (fun _ => None)
           (fun _ => None) None emptyTable).
  reflexivity.
Defined.

(** Parsing the two-row table gives the two-row frame of the range
    example. *)
Example parseTable_twoRows :
  parseTable (fun _ => Ok twoRowTable) readSchema (fun _ => None)
             (Some (mkIArrow None None))
  = Ok twoRows.
Proof. vm_compute. reflexivity. Qed.

(** A payload without the schema entry is refused, with the message of
    [getSchema] as the [catch] of [parseTable] words it. *)
Example parseTable_emptyTable :
  parseTable (fun _ => Ok emptyTable) readSchema (fun _ => None) None
  = Throw (Error (MsgStringOf ErrorName MsgSchemaMissing)).
Proof. reflexivity. Qed.

(** * Further properties of the code *)

(** ** The cell cache of the data editor *)

(** X1.  A cell stored in the cache is found again at its column and
    row, and storing it leaves every other position as it was. *)
Theorem cache_get_set {GridCell : Type} (cache : ContentCache GridCell)
    (col row col' row' : Z) (value : GridCell) :
  cache_get GridCell (cache_set GridCell cache col row value) col' row' =
    if decide (col' = col /\ row' = row) then Some value
    else cache_get GridCell cache col' row'.
Proof.
  unfold cache_set, cache_get, ContentCache in *.
  destruct (cache !! col) as [rowCache|] eqn:Hcol; simpl;
    rewrite ?Hcol, ?lookup_insert_eq; simpl;
    (destruct (decide (col' = col)) as [->|Hne];
     [ rewrite lookup_insert_eq;
       destruct (decide (row' = row)) as [->|Hrow];
       [ rewrite lookup_insert_eq; by rewrite decide_True
       | rewrite lookup_insert_ne by done;
         rewrite decide_False by tauto;
         rewrite ?Hcol, ?lookup_empty; done ]
     | rewrite !lookup_insert_ne by done;
       rewrite decide_False by tauto; done ]).
Qed.

(** An empty cache has no cell. *)
Lemma cache_get_empty {GridCell : Type} (col row : Z) :
  cache_get GridCell ∅ col row = None.
Proof. unfold cache_get, ContentCache. by rewrite lookup_empty. Qed.

(** ** The comparator as an order *)

Section ComparatorOrder.

Variable collate : string -> CollatorOptions -> string -> string -> Z.
Variable strnum : string -> option Z.

(** X2.  For every type tag other than ["unicode"], swapping the two
    values negates the result of [compareValues]; in particular a
    value compares equal to itself. *)
Theorem compareValues_antisym (a b : Value) (type : string) :
  type <> "unicode" ->
  compareValues collate strnum b a type
    = - compareValues collate strnum a b type /\
  compareValues collate strnum a a type = 0.
Proof.
  intros Htype. unfold compareValues.
  rewrite bool_decide_eq_false_2 by done. unfold compareAny, js_gt. split.
  - destruct (js_lt strnum a b) eqn:Hab.
    + by rewrite (js_lt_asym strnum a b Hab).
    + by destruct (js_lt strnum b a).
  - destruct (js_lt strnum a a) eqn:Haa; [| done].
    by rewrite (js_lt_asym strnum a a Haa) in Haa.
Qed.

Lemma compareAny_numbers (x y : Z) :
  compareAny strnum (VNum x) (VNum y) = Z.sgn (x - y).
Proof.
  unfold compareAny, js_gt. simpl.
  destruct (Z.ltb_spec x y); [lia |].
  destruct (Z.ltb_spec y x); lia.
Qed.

End ComparatorOrder.

Lemma compareValues_antisym_witness :
  compareValues foldingCollator (fun _ => None) (VNum 2) (VNum 1) "int64"
    = - compareValues foldingCollator (fun _ => None) (VNum 1) (VNum 2) "int64"
  /\ compareValues foldingCollator (fun _ => None) (VNum 1) (VNum 1) "int64"
     = 0.
Proof.
  apply (compareValues_antisym foldingCollator (fun _ => None)
           (VNum 1) (VNum 2) "int64").
  discriminate.
Defined.

(** ** Sorting the rows *)

Lemma insertSorted_Permutation cmp x l :
  Permutation (insertSorted cmp x l) (x :: l).
Proof.
  induction l as [|y l IH]; simpl; [done |].
  destruct (cmp x y <=? 0); [done |].
  rewrite IH. apply perm_swap.
Qed.

Lemma insertionSort_Permutation cmp l : Permutation (insertionSort cmp l) l.
Proof.
  induction l as [|x l IH]; simpl; [done |].
  rewrite insertSorted_Permutation. by constructor.
Qed.

Lemma insertSorted_StronglySorted cmp (L : list nat) x s :
  consistent_comparator cmp L ->
  x ∈ L -> Forall (fun y => y ∈ L) s ->
  StronglySorted (fun a b => cmp a b <= 0) s ->
  StronglySorted (fun a b => cmp a b <= 0) (insertSorted cmp x s).
Proof.
  intros [Hanti Htrans] Hx. induction s as [|y s IH]; intros Hs Hsorted; simpl.
  - repeat constructor.
  - apply Forall_cons in Hs as [Hy Hs].
    apply StronglySorted_cons in Hsorted as [Hys Hsorted].
    destruct (Z.leb_spec (cmp x y) 0) as [Hle|Hgt].
    + apply StronglySorted_cons. split.
      * constructor; [done |].
        rewrite Forall_forall in Hys, Hs |- *. intros z Hz.
        eapply (Htrans x y z); eauto.
      * by apply StronglySorted_cons.
    + apply StronglySorted_cons. split; [| by apply IH].
      rewrite (insertSorted_Permutation cmp x s). constructor; [| done].
      assert (cmp y x < 0) by (by apply Hanti). lia.
Qed.

Lemma insertionSort_contract : sort_contract insertionSort.
Proof.
  split; [apply insertionSort_Permutation |].
  intros cmp l Hcons.
  assert (forall s, Forall (fun y => y ∈ l) s ->
            StronglySorted (fun a b => cmp a b <= 0) (insertionSort cmp s))
    as Hall.
  { induction s as [|x s IH]; intros Hs; simpl; [constructor |].
    apply Forall_cons in Hs as [Hx Hs].
    apply (insertSorted_StronglySorted cmp l); auto.
    by rewrite insertionSort_Permutation. }
  apply Hall. by apply Forall_forall.
Qed.

Lemma StronglySorted_impl_elem {A} (R R' : A -> A -> Prop) (l : list A) :
  (forall a b, a ∈ l -> b ∈ l -> R a b -> R' a b) ->
  StronglySorted R l -> StronglySorted R' l.
Proof.
  induction l as [|x l IH]; intros HR Hsorted; [constructor |].
  apply StronglySorted_cons in Hsorted as [Hx Hsorted].
  apply StronglySorted_cons. split.
  - rewrite Forall_forall in Hx |- *. intros y Hy.
    apply HR; [by left | by right | by apply Hx].
  - apply IH; [| done]. intros a b Ha Hb. apply HR; by right.
Qed.

Section SortingProperties.

Variable collate : string -> CollatorOptions -> string -> string -> Z.
Variable strnum : string -> option Z.
Variable sort : (nat -> nat -> Z) -> list nat -> list nat.

Lemma getSortedDataRowIndices_cases (q : Quiver) (sortColumnIdx : Z)
    (sortAscending : bool) :
  getSortedDataRowIndices collate strnum sort q sortColumnIdx sortAscending =
    if decide (0 <= sortColumnIdx < Z.of_nat (snd (tableRowsAndColumns q)))
    then SortedIndices
           (sort (sortComparator collate strnum q sortColumnIdx sortAscending)
                 (seq 0 (fst (tableRowsAndColumns q))))
    else BadSortColumnIdx sortColumnIdx (snd (tableRowsAndColumns q)).
Proof.
  unfold getSortedDataRowIndices.
  destruct (tableRowsAndColumns q) as [dataRows dataColumns]. simpl.
  rewrite Z.geb_leb.
  destruct (Z.ltb_spec sortColumnIdx 0); simpl;
    [by rewrite decide_False by lia |].
  destruct (Z.leb_spec (Z.of_nat dataColumns) sortColumnIdx);
    [by rewrite decide_False by lia | by rewrite decide_True by lia].
Qed.

(** X3.  [getSortedDataRowIndices] refuses a column index that is
    negative or not below the column count of [tableRowsAndColumns]
    (so every index, on a frame whose first body row is missing or
    empty); for any other index it returns a rearrangement of the row
    indices [0 .. rows-1], whatever the values and the direction. *)
Theorem getSortedDataRowIndices_indices (q : Quiver) (sortColumnIdx : Z)
    (sortAscending : bool) :
  sort_contract sort ->
  let dataRows := fst (tableRowsAndColumns q) in
  let dataColumns := snd (tableRowsAndColumns q) in
  (sortColumnIdx < 0 \/ Z.of_nat dataColumns <= sortColumnIdx ->
   getSortedDataRowIndices collate strnum sort q sortColumnIdx sortAscending
     = BadSortColumnIdx sortColumnIdx dataColumns) /\
  (0 <= sortColumnIdx < Z.of_nat dataColumns ->
   exists indices,
     getSortedDataRowIndices collate strnum sort q sortColumnIdx sortAscending
       = SortedIndices indices /\
     Permutation indices (seq 0 dataRows)).
Proof.
  intros [Hperm _]. cbv zeta. rewrite getSortedDataRowIndices_cases. split.
  - intros Hbad. by rewrite decide_False by lia.
  - intros Hin. rewrite decide_True by done.
    eexists. split; [done |]. apply Hperm.
Qed.

Lemma sortComparator_numbers (q : Quiver) (sortColumnIdx : Z)
    (sortAscending : bool) (dataRows : nat) :
  at_index (Data.type (data q)) sortColumnIdx <> Some "unicode" ->
  (forall i, (i < dataRows)%nat ->
             exists n, sortValue q sortColumnIdx i = VNum n) ->
  forall a b, a ∈ seq 0 dataRows -> b ∈ seq 0 dataRows ->
    sortComparator collate strnum q sortColumnIdx sortAscending a b =
      if sortAscending
      then Z.sgn (numberAt q sortColumnIdx a - numberAt q sortColumnIdx b)
      else Z.sgn (numberAt q sortColumnIdx b - numberAt q sortColumnIdx a).
Proof.
  intros Htype Hnum a b Ha Hb.
  apply elem_of_seq in Ha, Hb.
  destruct (Hnum a) as [x Hx]; [lia |]. destruct (Hnum b) as [y Hy]; [lia |].
  unfold sortComparator, numberAt. rewrite Hx, Hy.
  assert (forall u v,
            match at_index (Data.type (data q)) sortColumnIdx with
            | Some type => compareValues collate strnum (VNum u) (VNum v) type
            | None => compareAny strnum (VNum u) (VNum v)
            end = Z.sgn (u - v)) as Hcmp.
  { intros u v. destruct (at_index _ _) as [type|].
    - unfold compareValues. rewrite bool_decide_eq_false_2 by congruence.
      apply compareAny_numbers.
    - apply compareAny_numbers. }
  destruct sortAscending; apply Hcmp.
Qed.

(** X4.  On a column whose values are all numbers and whose type tag is
    not ["unicode"], [getSortedDataRowIndices] returns the row indices
    ordered by their values: never decreasing when ascending, never
    increasing when descending. *)
Theorem getSortedDataRowIndices_numbers (q : Quiver) (sortColumnIdx : Z)
    (sortAscending : bool) :
  sort_contract sort ->
  let dataRows := fst (tableRowsAndColumns q) in
  let dataColumns := snd (tableRowsAndColumns q) in
  0 <= sortColumnIdx < Z.of_nat dataColumns ->
  at_index (Data.type (data q)) sortColumnIdx <> Some "unicode" ->
  (forall i, (i < dataRows)%nat ->
             exists n, sortValue q sortColumnIdx i = VNum n) ->
  exists indices,
    getSortedDataRowIndices collate strnum sort q sortColumnIdx sortAscending
      = SortedIndices indices /\
    Permutation indices (seq 0 dataRows) /\
    StronglySorted
      (fun a b => if sortAscending
                  then numberAt q sortColumnIdx a <= numberAt q sortColumnIdx b
                  else numberAt q sortColumnIdx b <= numberAt q sortColumnIdx a)
      indices.
Proof.
  intros Hcontract dataRows dataColumns Hin Htype Hnum.
  rewrite getSortedDataRowIndices_cases. rewrite decide_True by done.
  pose proof (sortComparator_numbers q sortColumnIdx sortAscending dataRows
                Htype Hnum) as Hcmp.
  destruct Hcontract as [Hperm Hsorted].
  eexists. split; [done |]. split; [apply Hperm |].
  eapply StronglySorted_impl_elem; [| apply Hsorted].
  - intros a b Ha Hb. rewrite Hperm in Ha, Hb.
    rewrite (Hcmp a b Ha Hb). destruct sortAscending; lia.
  - split.
    + intros a b Ha Hb. rewrite !Hcmp by done. destruct sortAscending; lia.
    + intros a b c Ha Hb Hc. rewrite !Hcmp by done.
      destruct sortAscending; lia.
Qed.

End SortingProperties.

Lemma getSortedDataRowIndices_indices_witness :
  let dataRows := fst (tableRowsAndColumns unsortedRows) in
  let dataColumns := snd (tableRowsAndColumns unsortedRows) in
  (0 < 0 \/ Z.of_nat dataColumns <= 0 ->
   getSortedDataRowIndices foldingCollator (fun _ => None) insertionSort
                           unsortedRows 0 true
     = BadSortColumnIdx 0 dataColumns) /\
  (0 <= 0 < Z.of_nat dataColumns ->
   exists indices,
     getSortedDataRowIndices foldingCollator (fun _ => None) insertionSort
                             unsortedRows 0 true
       = SortedIndices indices /\
     Permutation indices (seq 0 dataRows)).
Proof.
  apply (getSortedDataRowIndices_indices foldingCollator (fun _ => None)
           insertionSort unsortedRows 0 true).
  exact insertionSort_contract.
Defined.

Lemma getSortedDataRowIndices_numbers_witness :
  exists indices,
    getSortedDataRowIndices foldingCollator (fun _ => None) insertionSort
                            unsortedRows 0 false
      = SortedIndices indices /\
    Permutation indices (seq 0 (fst (tableRowsAndColumns unsortedRows))) /\
    StronglySorted
      (fun a b => numberAt unsortedRows 0 b <= numberAt unsortedRows 0 a)
      indices.
Proof.
  apply (getSortedDataRowIndices_numbers foldingCollator (fun _ => None)
           insertionSort unsortedRows 0 false).
  - exact insertionSort_contract.
  - simpl. lia.
  - discriminate.
  - intros [|[|[|i]]] Hi; simpl in Hi; [by eexists .. | lia].
Defined.

(** The rows holding 30, 10 and 20, in both directions; a column that
    does not exist. *)
Example getSortedDataRowIndices_unsortedRows :
  getSortedDataRowIndices foldingCollator (fun _ => None) insertionSort
                          unsortedRows 0 true = SortedIndices [1; 2; 0]%nat /\
  getSortedDataRowIndices foldingCollator (fun _ => None) insertionSort
                          unsortedRows 0 false = SortedIndices [0; 2; 1]%nat /\
  getSortedDataRowIndices foldingCollator (fun _ => None) insertionSort
                          unsortedRows 1 true = BadSortColumnIdx 1 1.
Proof. repeat split. Qed.

(** ** The index merge, level by level *)

Lemma rangeStep_fold_length (second : list Value) :
  forall (d : list Value) (v : Value) (m : JsObject),
    length (fst (fst (fold_left rangeStep second (d, v, m))))
    = (length d + length second)%nat.
Proof.
  induction second as [|x second IH]; intros d v m; simpl; [lia |].
  rewrite IH, length_app. simpl. lia.
Qed.

Lemma concatIndex_length (firstIndex second : list Value)
    (indexType : option IndexType) (c : IndexData.t) :
  concatIndex firstIndex (Some second) indexType = Ok c ->
  length (IndexData.data c) = (length firstIndex + length second)%nat.
Proof.
  unfold concatIndex, concatRangeIndex, concatAnyIndex.
  destruct indexType as [t|]; [| done].
  destruct (bool_decide (name t = Some RangeIndexName)).
  - destruct (meta t) as [m|]; [| done].
    pose proof (rangeStep_fold_length second firstIndex (field m "stop") m)
      as Hlen.
    destruct (fold_left rangeStep second _) as [[d v] m']. simpl in Hlen.
    by intros [= <-].
  - destruct (bool_decide (name t = Some CategoricalIndexName)).
    + destruct (meta t); [| done]. intros [= <-]. simpl. by rewrite length_app.
    + intros [= <-]. simpl. by rewrite length_app.
Qed.

(** The loop of [concatIndices]: one merged level per level of the
    first index, in order. *)
Lemma concatIndices_reduce (firstIndices secondIndices : Index.t) :
  forall (levels : list (list Value)) (i : nat) (acc res : Index.t),
    reduce_from i
      (fun newIndex firstIndexData index =>
         concatenatedIndex ←
           concatIndex firstIndexData
                       (Index.data secondIndices !! index)
                       (Index.type firstIndices !! index);
         Ok (Index.mk
               (Index.data newIndex ++ [IndexData.data concatenatedIndex])
               (Index.type newIndex ++ [IndexData.type concatenatedIndex])))
      levels acc = Ok res ->
    exists cs : list IndexData.t,
      length cs = length levels /\
      (forall k x, levels !! k = Some x ->
         exists c, cs !! k = Some c /\
                   concatIndex x (Index.data secondIndices !! (i + k)%nat)
                               (Index.type firstIndices !! (i + k)%nat)
                   = Ok c) /\
      res = Index.mk (Index.data acc ++ map IndexData.data cs)
                     (Index.type acc ++ map IndexData.type cs).
Proof.
  induction levels as [|x levels IH]; intros i acc res; simpl.
  - intros [= <-]. exists []. simpl. rewrite !app_nil_r.
    split; [done |]. split; [| by destruct acc].
    intros k y Hk. by rewrite lookup_nil in Hk.
  - destruct (concatIndex x _ _) as [c|e] eqn:Hc; simpl; [| done].
    intros Hres. destruct (IH _ _ _ Hres) as (cs & Hlen & Hall & ->).
    exists (c :: cs). simpl. split; [by rewrite Hlen |]. split.
    + intros [|k] y Hk; simpl in Hk.
      * injection Hk as <-. exists c. rewrite Nat.add_0_r. done.
      * destruct (Hall k y Hk) as (c' & Hc' & Hk').
        exists c'. split; [done |]. by rewrite <- Nat.add_succ_comm.
    + by rewrite <- !app_assoc.
Qed.

Lemma concatIndices_Ok_inv (firstIndices secondIndices res : Index.t)
    (level0 : list Value) :
  Index.data firstIndices !! 0%nat = Some level0 -> level0 <> [] ->
  concatIndices firstIndices secondIndices = Ok res ->
  sameIndexTypes (Index.type firstIndices) (Index.type secondIndices) = true /\
  exists cs : list IndexData.t,
    length cs = length (Index.data firstIndices) /\
    (forall k x, Index.data firstIndices !! k = Some x ->
       exists c, cs !! k = Some c /\
                 concatIndex x (Index.data secondIndices !! k)
                             (Index.type firstIndices !! k) = Ok c) /\
    res = Index.mk (map IndexData.data cs) (map IndexData.type cs).
Proof.
  intros Hlevel0 Hne. unfold concatIndices. rewrite Hlevel0.
  destruct level0 as [|v level0]; [done |]. simpl.
  destruct (sameIndexTypes _ _); simpl; [| done].
  intros Hres. split; [done |]. unfold reduce in Hres.
  destruct (concatIndices_reduce _ _ _ _ _ _ Hres) as (cs & Hlen & Hall & ->).
  exists cs. split; [done |]. split; [| done]. exact Hall.
Qed.

(** ** Concatenation keeps a frame renderable *)

Lemma dimensions_eta (q : Quiver) (d : TableDimensions.t) :
  dimensions q = Ok d ->
  d = TableDimensions.mk
        (TableDimensions.headerRows d) (TableDimensions.headerColumns d)
        (TableDimensions.dataRows d) (TableDimensions.dataColumns d)
        (TableDimensions.headerRows d + TableDimensions.dataRows d)
        (TableDimensions.headerColumns d + TableDimensions.dataColumns d).
Proof.
  intros Hd. destruct (dimensions_Ok_inv q d Hd) as (_ & _ & _ & _ & Hr & Hc & _).
  destruct d. simpl in *. by subst.
Qed.

(** X5.  Let the base be a non-styled frame with at least one body row
    whose dimensions are computed, and let both frames have as many
    body rows as their first index level has entries.  Whenever
    [concatTables] returns a frame, the dimensions of that frame are
    computed too: the header rows, header columns and body columns are
    the base's, and the body rows are the sum of the two frames' body
    rows. *)
Theorem concatTables_dimensions (df1 df2 q : Quiver) (d1 : TableDimensions.t) :
  styler df1 = None -> styler df2 = None ->
  dimensions df1 = Ok d1 ->
  bodyRows df1 <> 0%nat -> complete df1 -> complete df2 ->
  concatTables df1 df2 = Ok q ->
  dimensions q =
    Ok (TableDimensions.mk
          (TableDimensions.headerRows d1) (TableDimensions.headerColumns d1)
          (TableDimensions.dataRows d1 + bodyRows df2)
          (TableDimensions.dataColumns d1)
          (TableDimensions.headerRows d1
           + (TableDimensions.dataRows d1 + bodyRows df2))
          (TableDimensions.headerColumns d1 + TableDimensions.dataColumns d1)).
Proof.
  intros Hs1 Hs2 Hd1 Hrows Hc1 Hc2.
  rewrite concatTables_unstyled by done.
  rewrite (isEmptyDf_rows df1)
    by (unfold bodyRows in Hrows; by destruct (Data.data (data df1))).
  simpl.
  destruct (isEmptyDf df2) as [[|]|e] eqn:He2; simpl; [| | done].
  - (* the addition is empty *)
    intros [= <-]. apply isEmptyDf_true_iff in He2 as (Hrows2 & _ & _).
    unfold bodyRows at 1 2. rewrite Hrows2. simpl. rewrite !Nat.add_0_r.
    rewrite Hd1. f_equal. by apply (dimensions_eta df1).
  - destruct (concatIndices (index df1) (index df2)) as [merged|e] eqn:Hidx;
      simpl; [| done].
    unfold concatData.
    destruct (sameDataColumnTypes _ _); simpl; [| done].
    intros [= <-].
    (* the first level of the base *)
    unfold complete, indexRows in Hc1.
    destruct (Index.data (index df1)) as [|level0 levels] eqn:Hlevels1;
      [lia |].
    assert (level0 <> []) as Hne0 by (intros ->; simpl in Hc1; lia).
    destruct (concatIndices_Ok_inv (index df1) (index df2) merged level0)
      as (_ & cs & Hlen & Hall & ->); [by rewrite Hlevels1 | done | done |].
    rewrite Hlevels1 in Hlen, Hall.
    destruct (Hall 0%nat level0 eq_refl) as (c0 & Hc0 & Hmerge0).
    destruct cs as [|c0' cs]; [done |]. simpl in Hc0. injection Hc0 as ->.
    (* the first level of the addition *)
    assert (exists second0, Index.data (index df2) !! 0%nat = Some second0
                            /\ length second0 = bodyRows df2)
      as (second0 & Hsecond0 & Hlen2).
    { unfold complete, indexRows in Hc2. unfold isEmptyDf, bodyRows in *.
      destruct (Index.data (index df2)) as [|s0 ss]; simpl in *.
      - rewrite Hc2 in He2. simpl in He2. done.
      - exists s0. split; [done | lia]. }
    rewrite Hsecond0 in Hmerge0.
    apply concatIndex_length in Hmerge0.
    (* the dimensions of the merged frame *)
    set (q := Quiver_new _).
    assert (bodyRows q = (bodyRows df1 + bodyRows df2)%nat) as Hbr.
    { unfold bodyRows. subst q. simpl. by rewrite length_app, length_map. }
    assert (indexRows q = (bodyRows df1 + bodyRows df2)%nat) as Hir.
    { unfold indexRows. subst q. simpl. rewrite Hmerge0, Hlen2. lia. }
    assert (bodyColumns q = bodyColumns df1) as Hbc.
    { unfold bodyColumns, bodyRows in *. subst q. simpl.
      by destruct (Data.data (data df1)). }
    assert (labelColumns q = labelColumns df1) as Hlc by done.
    assert (columns q = columns df1) as Hcols by done.
    assert (length (Index.data (index q)) = length (Index.data (index df1)))
      as Hhc.
    { subst q. simpl. rewrite Hlevels1, length_map. simpl in *. lia. }
    clearbody q.
    rewrite dimensions_cases in Hd1 |- *. cbv zeta in *.
    rewrite Hbr, Hir, Hbc, Hlc, Hcols, Hhc.
    unfold indexRows at 1 in Hd1. rewrite Hlevels1, <- Hc1 in Hd1.
    rewrite (Nat.eqb_refl (bodyRows df1)) in Hd1.
    rewrite Nat.eqb_refl.
    rewrite (proj2 (Nat.eqb_neq (bodyRows df1) 0) Hrows) in Hd1.
    rewrite (proj2 (Nat.eqb_neq (bodyRows df1 + bodyRows df2) 0))
      by lia.
    simpl in Hd1 |- *.
    destruct (negb (bodyColumns df1 =? 0)%nat && _); [done |].
    injection Hd1 as <-. simpl. rewrite Hlevels1. simpl. reflexivity.
Qed.

Lemma concatTables_dimensions_witness :
  dimensions (rangeFrame 0 1 5 [0; 1; 2; 3; 4] ["a"]
                [[VNum 10]; [VNum 11]; [VNum 12]; [VNum 20]; [VNum 21]]
                ["int64"]) =
    Ok (TableDimensions.mk 1 1 (3 + bodyRows twoRows) 1
                           (1 + (3 + bodyRows twoRows)) (1 + 1)).
Proof.
  apply (concatTables_dimensions threeRows twoRows _
           (TableDimensions.mk 1 1 3 1 4 2));
    try reflexivity; try discriminate.
Defined.

(** ** What a failed [addRows] leaves behind *)

Lemma concatLevels_after_lookup_lt (secondIndices : Index.t) :
  forall (levels : list (list Value)) (i j : nat) (st : Index.t),
    (j < i)%nat ->
    Index.data (concatLevels_after i levels secondIndices st) !! j
    = Index.data st !! j.
Proof.
  induction levels as [|x levels IH]; intros i j st Hlt; simpl; [done |].
  destruct (concatIndex x _ _) as [c|e]; [| done].
  rewrite IH by lia. simpl.
  destruct (bool_decide _); [| done].
  apply list_lookup_insert_ne. lia.
Qed.

Lemma concatLevels_after_data (secondIndices : Index.t) :
  forall (levels : list (list Value)) (i : nat) (st : Index.t),
    Index.data (concatLevels_after i levels secondIndices st) <> [] ->
    Index.data st <> [].
Proof.
  induction levels as [|x levels IH]; intros i st; simpl; [done |].
  destruct (concatIndex x _ _) as [c|e]; [| done].
  intros H. apply IH in H. simpl in H.
  destruct (bool_decide _); [| done].
  intros Hnil. rewrite Hnil in H. by destruct i.
Qed.

(** X6.  [concatRangeIndex] extends the array of the base's range level
    itself.  So when the receiver's first index level is a range level
    with entries, the argument's first level has entries, the index
    type names agree, and [addRows] fails all the same (for instance on
    a data-type mismatch), the receiver keeps its body but its first
    index level has grown by the argument's entries; a receiver that
    had as many body rows as index entries then no longer has
    dimensions. *)
Theorem addRows_failure_extends_index (this newRows : Quiver)
    (level0 second0 : list Value) (t0 : IndexType) (m : JsObject)
    (e : JsError) :
  styler this = None -> styler newRows = None ->
  Index.data (index this) !! 0%nat = Some level0 -> level0 <> [] ->
  Index.type (index this) !! 0%nat = Some t0 ->
  name t0 = Some RangeIndexName -> meta t0 = Some m ->
  Index.data (index newRows) !! 0%nat = Some second0 -> second0 <> [] ->
  sameIndexTypes (Index.type (index this)) (Index.type (index newRows)) = true ->
  concatTables this newRows = Throw e ->
  exists level0',
    fst (addRows this newRows) = Throw e /\
    data (snd (addRows this newRows)) = data this /\
    columns (snd (addRows this newRows)) = columns this /\
    Index.data (index (snd (addRows this newRows))) !! 0%nat = Some level0' /\
    length level0' = (length level0 + length second0)%nat /\
    (bodyRows this = length level0 ->
     fails_with (dimensions (snd (addRows this newRows))) DimensionMismatch).
Proof.
  intros Hs1 Hs2 Hl0 Hne0 Ht0 Hname Hmeta Hs0 Hnes0 Hsame Hthrow.
  unfold addRows. rewrite Hthrow. simpl.
  unfold concatTables_after. rewrite Hs1, Hs2. simpl.
  rewrite (isEmptyDf_level0 this level0 Hl0).
  rewrite (isEmptyDf_level0 newRows second0 Hs0).
  replace (length level0 =? 0)%nat with false
    by (by destruct level0).
  replace (length second0 =? 0)%nat with false
    by (by destruct second0).
  rewrite !andb_false_r. simpl.
  (* the first level is merged in place *)
  assert (exists c, concatIndex level0 (Some second0) (Some t0) = Ok c)
    as [c Hc].
  { unfold concatIndex, concatRangeIndex.
    rewrite (bool_decide_eq_true_2 _ Hname), Hmeta.
    destruct (fold_left rangeStep second0 _) as [[d v] m']. by eexists. }
  pose proof (concatIndex_length _ _ _ _ Hc) as Hlen.
  assert (Index.data (concatIndices_after (index this) (index newRows))
            !! 0%nat = Some (IndexData.data c)) as Hafter.
  { unfold concatIndices_after. rewrite Hl0.
    replace (length level0 =? 0)%nat with false by (by destruct level0).
    rewrite Hsame. simpl.
    destruct (Index.data (index this)) as [|l0 levels] eqn:Hlevels;
      [done |].
    simpl in Hl0. injection Hl0 as ->. simpl.
    rewrite Ht0, Hs0, Hc. simpl.
    rewrite (bool_decide_eq_true_2 _ Hname).
    rewrite concatLevels_after_lookup_lt by lia. simpl.
    by rewrite Hlevels. }
  exists (IndexData.data c). repeat split; try done.
  intros Hcomplete. apply dimensions_throws_iff.
  unfold bodyRows, indexRows in *. simpl.
  destruct (Index.data (concatIndices_after _ _)) as [|l0' levels'];
    [done |].
  simpl in Hafter. injection Hafter as ->.
  destruct level0; [done |]. destruct second0; [done |].
  simpl in *. lia.
Qed.

Lemma addRows_failure_extends_index_witness :
  exists level0',
    fst (addRows oneColumn oneUnicodeColumn)
      = Throw (Error (MsgDataType ["int64"] ["unicode"])) /\
    data (snd (addRows oneColumn oneUnicodeColumn)) = data oneColumn /\
    columns (snd (addRows oneColumn oneUnicodeColumn)) = columns oneColumn /\
    Index.data (index (snd (addRows oneColumn oneUnicodeColumn))) !! 0%nat
      = Some level0' /\
    length level0' = (length [VNum 0] + length [VNum 0])%nat /\
    (bodyRows oneColumn = length [VNum 0] ->
     fails_with (dimensions (snd (addRows oneColumn oneUnicodeColumn)))
                DimensionMismatch).
Proof.
  apply (addRows_failure_extends_index oneColumn oneUnicodeColumn
           [VNum 0] [VNum 0] (rangeType 0 1 1) (rangeMeta 0 1 1));
    try reflexivity; discriminate.
Defined.

(** The receiver of the example after the failed call: index entries 0
    and 1, recorded stop 2, one body row. *)
Example addRows_failure_example :
  addRows oneColumn oneUnicodeColumn =
    (Throw (Error (MsgDataType ["int64"] ["unicode"])),
     rangeFrame 0 1 2 [0; 1] ["a"] [[VNum 1]] ["int64"]) /\
  dimensions (rangeFrame 0 1 2 [0; 1] ["a"] [[VNum 1]] ["int64"]) =
    Throw (Error (MsgDimensions 1 2 1 1)).
Proof. split; vm_compute; reflexivity. Qed.

(** When [addRows] succeeds the receiver holds the merged frame. *)
Lemma addRows_success (this newRows merged : Quiver) :
  concatTables this newRows = Ok merged ->
  addRows this newRows = (Ok (), merged).
Proof. intros H. unfold addRows. rewrite H. by destruct merged. Qed.

(** ** The parsed range level and its extension *)

Lemma range_aligned (start step : Z) (k : nat) :
  step <> 0 ->
  range start (start + Z.of_nat k * step) step =
    map (fun i => start + Z.of_nat i * step) (seq 0 k).
Proof.
  intros Hstep. unfold range.
  replace (if step =? 0 then 1 else step) with step
    by (destruct (Z.eqb_spec step 0); [done | reflexivity]).
  replace (- (start + Z.of_nat k * step - start)) with ((- Z.of_nat k) * step)
    by lia.
  rewrite Z.div_mul by done.
  replace (Z.to_nat (Z.max (- - Z.of_nat k) 0)) with k by lia.
  reflexivity.
Qed.

Lemma progression_shift (start step : Z) (k n : nat) :
  map (fun i => VNum (start + Z.of_nat i * step)) (seq k n) =
    progression (start + Z.of_nat k * step) step n.
Proof.
  unfold progression.
  replace (seq k n) with (Nat.add k <$> seq 0 n)
    by (rewrite fmap_add_seq; f_equal; lia).
  change (map ?f (Nat.add k <$> ?l)) with (map f (map (Nat.add k) l)).
  rewrite map_map. apply map_ext. intros i. f_equal. lia.
Qed.

Lemma rangeObject_stop (r : RangeIndex.t) (stop' : Z) :
  <["stop" := VNum stop']> (rangeObject r) =
    rangeObject (RangeIndex.mk (RangeIndex.name r) (RangeIndex.start r)
                               (RangeIndex.step r) stop').
Proof.
  unfold rangeObject. simpl. apply map_eq. intros key.
  destruct (decide (key = "stop")) as [->|Hstop].
  - rewrite lookup_insert_eq. by rewrite !lookup_insert_ne, lookup_singleton_eq.
  - rewrite lookup_insert_ne by done.
    destruct (decide (key = "kind")) as [->|Hkind];
      [by rewrite !lookup_insert_eq |].
    rewrite !(lookup_insert_ne _ "kind") by done.
    destruct (decide (key = "name")) as [->|Hname];
      [by rewrite !lookup_insert_eq |].
    rewrite !(lookup_insert_ne _ "name") by done.
    destruct (decide (key = "start")) as [->|Hstart];
      [by rewrite !lookup_insert_eq |].
    rewrite !(lookup_insert_ne _ "start") by done.
    destruct (decide (key = "step")) as [->|Hstep];
      [by rewrite !lookup_insert_eq |].
    rewrite !(lookup_insert_ne _ "step") by done.
    by rewrite !lookup_singleton_ne.
Qed.

(** X7.  Take the level and the type the parser builds from a range
    descriptor whose step is not zero and whose stop lies a whole
    number of steps after its start.  Extending that level by
    [concatRangeIndex] gives exactly the level and the type the parser
    builds from the same descriptor with the stop moved by one step per
    added entry: the materialised values and the recorded descriptor
    stay in agreement. *)
Theorem concatRangeIndex_keeps_range (r : RangeIndex.t) (k : nat)
    (second : list Value) :
  RangeIndex.step r <> 0 ->
  RangeIndex.stop r
    = RangeIndex.start r + Z.of_nat k * RangeIndex.step r ->
  let r' :=
    RangeIndex.mk (RangeIndex.name r) (RangeIndex.start r) (RangeIndex.step r)
      (RangeIndex.stop r + Z.of_nat (length second) * RangeIndex.step r) in
  concatRangeIndex
    (map VNum (range (RangeIndex.start r) (RangeIndex.stop r)
                     (RangeIndex.step r)))
    (Some second)
    (mkIndexType (Some RangeIndexName) (Some (rangeObject r)))
  = Ok (IndexData.mk
          (map VNum (range (RangeIndex.start r') (RangeIndex.stop r')
                           (RangeIndex.step r')))
          (mkIndexType (Some RangeIndexName) (Some (rangeObject r')))).
Proof.
  intros Hstep Hstop r'.
  rewrite (concatRangeIndex_progression _ _ _ (rangeObject r)
             (RangeIndex.stop r) (RangeIndex.step r)); try done.
  subst r'. simpl. rewrite rangeObject_stop. f_equal. f_equal.
  rewrite Hstop.
  replace (RangeIndex.start r + Z.of_nat k * RangeIndex.step r
           + Z.of_nat (length second) * RangeIndex.step r)
    with (RangeIndex.start r
          + Z.of_nat (k + length second) * RangeIndex.step r) by lia.
  rewrite !range_aligned by done.
  rewrite seq_app, !map_app, !map_map. f_equal.
  simpl. symmetry. apply progression_shift.
Qed.

Lemma concatRangeIndex_keeps_range_witness :
  let r := RangeIndex.mk None 0 2 6 in
  let r' :=
    RangeIndex.mk (RangeIndex.name r) (RangeIndex.start r) (RangeIndex.step r)
      (RangeIndex.stop r + Z.of_nat (length [VNull; VNull]) * RangeIndex.step r)
  in
  concatRangeIndex
    (map VNum (range (RangeIndex.start r) (RangeIndex.stop r)
                     (RangeIndex.step r)))
    (Some [VNull; VNull])
    (mkIndexType (Some RangeIndexName) (Some (rangeObject r)))
  = Ok (IndexData.mk
          (map VNum (range (RangeIndex.start r') (RangeIndex.stop r')
                           (RangeIndex.step r')))
          (mkIndexType (Some RangeIndexName) (Some (rangeObject r')))).
Proof.
  apply (concatRangeIndex_keeps_range (RangeIndex.mk None 0 2 6) 3
           [VNull; VNull]).
  - discriminate.
  - reflexivity.
Defined.

(** When the stop is not a whole number of steps after the start, the
    added values start at the recorded stop and leave the progression:
    the range from 0 to 5 by 2 holds 0, 2 and 4, and two more entries
    are 5 and 7. *)
Example concatRangeIndex_unaligned :
  IndexData.data <$>
    match concatRangeIndex (map VNum (range 0 5 2)) (Some [VNull; VNull])
                           (rangeType 0 2 5) with
    | Ok c => Some c
    | Throw _ => None
    end = Some (map VNum [0; 2; 4; 5; 7]) /\
  range 0 9 2 = [0; 2; 4; 6; 8].
Proof. split; reflexivity. Qed.

(** ** The index type check *)

(** X8.  [concatIndices] fails with [IndexTypeMismatch] exactly when the
    first level of the first index has entries and the two indexes
    differ in their sequence of type names; the metadata of the types
    plays no part, so two range indexes of different steps are
    merged. *)
Theorem concatIndices_IndexTypeMismatch_iff (firstIndices secondIndices : Index.t) :
  fails_with (concatIndices firstIndices secondIndices) IndexTypeMismatch <->
  (exists level0, Index.data firstIndices !! 0%nat = Some level0
                  /\ level0 <> []) /\
  map name (Index.type firstIndices) <> map name (Index.type secondIndices).
Proof.
  unfold concatIndices.
  destruct (Index.data firstIndices !! 0%nat) as [level0|] eqn:Hlevel0.
  2: { split.
       - intros (e & [= <-] & (? & ? & He)). discriminate He.
       - intros [(l & Hl & _) _]. discriminate Hl. }
  destruct level0 as [|v level0]; simpl.
  { split.
    - intros (e & He & _). discriminate He.
    - intros [(l & [= <-] & Hl) _]. done. }
  destruct (sameIndexTypes _ _) eqn:Hsame; simpl.
  - apply sameIndexTypes_names in Hsame. split; [| tauto].
    intros (e & He & (t1 & t2 & Hmsg)). exfalso. subst e.
    revert He. unfold reduce.
    intros He.
    assert (Error (MsgIndexType t1 t2) = typeError) as Habs; [| done].
    revert He. apply (reduce_from_throws _ (fun e => e = typeError)).
    intros acc x i e'.
    destruct (concatIndex _ _ _) eqn:Hc; simpl; [done |].
    intros [= <-]. by eapply concatIndex_throws.
  - split.
    + intros _. split; [by eexists |].
      intros Hnames. apply sameIndexTypes_names in Hnames. congruence.
    + intros _. eexists. split; [done |]. by eexists _, _.
Qed.

(** Two range indexes whose steps differ pass the check; the base's
    step is the one that counts. *)
Example concatIndices_different_steps :
  concatIndices (Index.mk [[VNum 0; VNum 1]] [rangeType 0 1 2])
                (Index.mk [[VNum 0; VNum 5]] [rangeType 0 5 10])
  = Ok (Index.mk [[VNum 0; VNum 1; VNum 2; VNum 3]] [rangeType 0 1 4]).
Proof. vm_compute. reflexivity. Qed.

(** ** Levels that are neither range nor categorical *)


Lemma concatIndex_plain (firstIndex second : list Value) (t : IndexType) :
  plain_type t ->
  concatIndex firstIndex (Some second) (Some t)
  = Ok (IndexData.mk (firstIndex ++ second) t).
Proof.
  intros [Hrange Hcat]. unfold concatIndex, concatAnyIndex.
  by rewrite !bool_decide_eq_false_2.
Qed.

Lemma concatIndices_reduce_plain (firstIndices secondIndices : Index.t) :
  forall (levels : list (list Value)) (i : nat) (acc : Index.t),
    (forall k x, levels !! k = Some x ->
       exists t s, Index.type firstIndices !! (i + k)%nat = Some t
                   /\ plain_type t
                   /\ Index.data secondIndices !! (i + k)%nat = Some s) ->
    reduce_from i
      (fun newIndex firstIndexData index =>
         concatenatedIndex ←
           concatIndex firstIndexData
                       (Index.data secondIndices !! index)
                       (Index.type firstIndices !! index);
         Ok (Index.mk
               (Index.data newIndex ++ [IndexData.data concatenatedIndex])
               (Index.type newIndex ++ [IndexData.type concatenatedIndex])))
      levels acc
    = Ok (Index.mk
            (Index.data acc
               ++ zip_with app levels (drop i (Index.data secondIndices)))
            (Index.type acc
               ++ take (length levels) (drop i (Index.type firstIndices)))).
Proof.
  induction levels as [|x levels IH]; intros i acc Hall; simpl.
  - rewrite !app_nil_r. by destruct acc.
  - destruct (Hall 0%nat x eq_refl) as (t & s & Ht & Hplain & Hs).
    rewrite Nat.add_0_r in Ht, Hs. rewrite Ht, Hs.
    rewrite (concatIndex_plain x s t Hplain). simpl.
    rewrite IH.
    + simpl. rewrite (drop_S _ _ _ Hs), (drop_S _ _ _ Ht). simpl.
      by rewrite <- !app_assoc.
    + intros k y Hk. destruct (Hall (S k) y Hk) as (t' & s' & ? & ? & ?).
      exists t', s'. by rewrite Nat.add_succ_comm.
Qed.

(** X9.  When the first level of the first index has entries, the type
    names of the two indexes agree, each index has one data sequence
    per type, and no level is a range or a categorical one,
    [concatIndices] appends the second index to the first level by
    level and keeps the first index's types. *)
Theorem concatIndices_plain_levels (firstIndices secondIndices : Index.t)
    (level0 : list Value) :
  Index.data firstIndices !! 0%nat = Some level0 -> level0 <> [] ->
  sameIndexTypes (Index.type firstIndices) (Index.type secondIndices) = true ->
  length (Index.data firstIndices) = length (Index.type firstIndices) ->
  length (Index.data secondIndices) = length (Index.type secondIndices) ->
  Forall plain_type (Index.type firstIndices) ->
  concatIndices firstIndices secondIndices
  = Ok (Index.mk
          (zip_with app (Index.data firstIndices) (Index.data secondIndices))
          (Index.type firstIndices)).
Proof.
  intros Hlevel0 Hne Hsame Hlen1 Hlen2 Hplain.
  unfold concatIndices. rewrite Hlevel0.
  replace (length level0 =? 0)%nat with false by (by destruct level0).
  rewrite Hsame. simpl. unfold reduce.
  rewrite concatIndices_reduce_plain.
  - simpl. rewrite !drop_0, Hlen1. by rewrite firstn_all.
  - intros k x Hk. simpl.
    assert (length (Index.type firstIndices)
            = length (Index.type secondIndices)) as Hlen.
    { apply sameIndexTypes_names in Hsame.
      apply (f_equal length) in Hsame. by rewrite !length_map in Hsame. }
    apply lookup_lt_Some in Hk.
    destruct (lookup_lt_is_Some_2 (Index.type firstIndices) k) as [t Ht];
      [lia |].
    destruct (lookup_lt_is_Some_2 (Index.data secondIndices) k) as [s Hs];
      [lia |].
    exists t, s. split; [done |]. split; [| done].
    rewrite Forall_forall in Hplain. apply Hplain.
    by eapply list_elem_of_lookup_2.
Qed.

Lemma concatIndices_plain_levels_witness :
  let firstIndices :=
    Index.mk [[VStr "a"]; [VNum 7]]
             [mkIndexType (Some "unicode") None;
              mkIndexType (Some "int64") None] in
  let secondIndices :=
    Index.mk [[VStr "b"; VStr "c"]; [VNum 8; VNum 9]]
             [mkIndexType (Some "unicode") None;
              mkIndexType (Some "int64") None] in
  concatIndices firstIndices secondIndices
  = Ok (Index.mk
          (zip_with app (Index.data firstIndices) (Index.data secondIndices))
          (Index.type firstIndices)).
Proof.
  apply (concatIndices_plain_levels _ _ [VStr "a"]); try reflexivity.
  - discriminate.
  - repeat constructor; discriminate.
Defined.

(** ** The body merge composes *)

(** X10.  When [concatData] accepts [a] with [b] and [b] with [c], it
    accepts the two ways of merging all three and both give the same
    body: merging is associative. *)
Theorem concatData_assoc (a b c ab bc : Data.t) :
  concatData a b = Ok ab -> concatData b c = Ok bc ->
  exists abc, concatData ab c = Ok abc /\ concatData a bc = Ok abc.
Proof.
  unfold concatData.
  destruct (sameDataColumnTypes (Data.type a) (Data.type b)) eqn:Hab;
    simpl; [| done].
  destruct (sameDataColumnTypes (Data.type b) (Data.type c)) eqn:Hbc;
    simpl; [| done].
  intros [= <-] [= <-]. simpl. rewrite Hab. simpl.
  apply sameDataColumnTypes_prefix in Hab, Hbc.
  assert (sameDataColumnTypes (Data.type a) (Data.type c) = true) as ->
    by (apply sameDataColumnTypes_prefix; by etrans).
  simpl. eexists. split; [reflexivity |]. f_equal. f_equal.
  rewrite <- app_assoc. f_equal. rewrite map_app. f_equal.
  rewrite map_map. apply map_ext. intros row.
  rewrite take_take. f_equal.
  apply prefix_length in Hab. lia.
Qed.

Lemma concatData_assoc_witness :
  exists abc,
    concatData (Data.mk [[VNum 1]; [VNum 2]] ["int64"])
               (Data.mk [[VNum 3; VStr "y"; VNull]]
                        ["int64"; "unicode"; "object"]) = Ok abc /\
    concatData (data oneColumn)
               (Data.mk [[VNum 2; VStr "x"]; [VNum 3; VStr "y"]]
                        ["int64"; "unicode"]) = Ok abc.
Proof.
  apply (concatData_assoc (data oneColumn)
           (Data.mk [[VNum 2; VStr "x"]] ["int64"; "unicode"])
           (Data.mk [[VNum 3; VStr "y"; VNull]] ["int64"; "unicode"; "object"]));
    reflexivity.
Defined.

(** ** What a cell shows *)

Lemma at_index_of_nat {A} (l : list A) (n : nat) :
  at_index l (Z.of_nat n) = l !! n.
Proof.
  unfold at_index. destruct (Z.ltb_spec (Z.of_nat n) 0); [lia |].
  by rewrite Nat2Z.id.
Qed.

Lemma value_at_of_nat (row : list Value) (n : nat) :
  value_at row (Z.of_nat n) = default VUndefined (row !! n).
Proof. unfold value_at. by rewrite at_index_of_nat. Qed.

Section CellContent.

Variable fmt : Value -> option string -> string.

(** X11.  In a frame whose dimensions are computed, the grid is laid
    out with the header first.  The body cell of body row [i] and body
    column [j] is at grid position [(headerRows + i, headerColumns + j)]
    and, without display values, shows the formatted value [j] of data
    row [i], formatted by type tag [j]; the index cell of level [j] and
    body row [i] is at [(headerRows + i, j)] and shows the formatted
    entry [i] of that level, formatted by the level's type name; the
    label cell of label level [i] and body column [j] is at
    [(i, headerColumns + j)] and shows label [j] of that level as it
    is. *)
Theorem getCell_addresses (q : Quiver) (d : TableDimensions.t) (i j : nat) :
  dimensions q = Ok d ->
  let hr := Z.of_nat (TableDimensions.headerRows d) in
  let hc := Z.of_nat (TableDimensions.headerColumns d) in
  ((i < TableDimensions.dataRows d)%nat ->
   (j < TableDimensions.dataColumns d)%nat ->
   has_displayValues q = false ->
   exists row cell,
     Data.data (data q) !! i = Some row /\
     getCell fmt q (hr + Z.of_nat i) (hc + Z.of_nat j) = Ok cell /\
     TableCell.content cell =
       VStr (fmt (default VUndefined (row !! j))
                 (Data.type (data q) !! j))) /\
  (forall level t,
     (i < TableDimensions.dataRows d)%nat ->
     Index.data (index q) !! j = Some level ->
     Index.type (index q) !! j = Some t ->
     exists cell,
       getCell fmt q (hr + Z.of_nat i) (Z.of_nat j) = Ok cell /\
       TableCell.content cell =
         VStr (fmt (default VUndefined (level !! i)) (name t))) /\
  (forall labels,
     columns q !! i = Some labels ->
     (j < TableDimensions.dataColumns d)%nat ->
     exists cell,
       getCell fmt q (Z.of_nat i) (hc + Z.of_nat j) = Ok cell /\
       TableCell.content cell = default VUndefined (labels !! j)).
Proof.
  intros Hd hr hc. subst hr hc.
  destruct (dimensions_Ok_inv q d Hd)
    as (Hhr & Hhc & Hdr & Hdc & Hrows & Hcols & Hdc0).
  destruct q as [idx cols dat sty]. simpl in Hhr, Hhc.
  unfold bodyRows in Hdr. simpl in Hdr.
  split; [| split].
  - intros Hi Hj Hvalues.
    destruct (lookup_lt_is_Some_2 (Data.data dat) i) as [row Hrow]; [lia |].
    exists row. cbn [getCell]. rewrite Hd.
    unfold has_displayValues in Hvalues. simpl in Hvalues.
    split_tests; try lia.
    all: replace (Z.of_nat (TableDimensions.headerRows d) + Z.of_nat i
             - Z.of_nat (TableDimensions.headerRows d)) with (Z.of_nat i)
      by lia.
    all: replace (Z.of_nat (TableDimensions.headerColumns d) + Z.of_nat j
             - Z.of_nat (TableDimensions.headerColumns d)) with (Z.of_nat j)
      by lia.
    all: destruct sty as [[u cap st [values|]]|]; [done | |]; simpl;
      rewrite !at_index_of_nat, Hrow; simpl; rewrite value_at_of_nat;
      eexists; (split; [done |]); (split; [done |]); done.
  - intros level t Hi Hlevel Htype.
    pose proof (lookup_lt_Some _ _ _ Hlevel) as Hj.
    simpl in Hlevel, Htype, Hj. cbn [getCell]. rewrite Hd. simpl.
    split_tests; try lia.
    all: replace (Z.of_nat (TableDimensions.headerRows d) + Z.of_nat i
             - Z.of_nat (TableDimensions.headerRows d)) with (Z.of_nat i)
      by lia.
    all: rewrite !at_index_of_nat, Hlevel, Htype; simpl.
    all: rewrite value_at_of_nat; eexists; split; done.
  - intros labels Hlabels Hj.
    pose proof (lookup_lt_Some _ _ _ Hlabels) as Hi.
    simpl in Hi, Hlabels. cbn [getCell]. rewrite Hd. simpl.
    split_tests; try lia.
    all: replace (Z.of_nat (TableDimensions.headerColumns d) + Z.of_nat j
             - Z.of_nat (TableDimensions.headerColumns d)) with (Z.of_nat j)
      by lia.
    all: rewrite !at_index_of_nat, Hlabels; simpl.
    all: rewrite value_at_of_nat; eexists; split; done.
Qed.

(** X12.  In a frame with display values, a body cell inside the grid
    shows what the display values' own [getCell] returns at the same
    grid position, and fails as that call fails: the frame's own data
    is not read. *)
Theorem getCell_displayValues (q values : Quiver) (st : Styler)
    (d : TableDimensions.t) (r c : Z) :
  styler q = Some st -> displayValues st = Some values ->
  dimensions q = Ok d -> in_grid d r c ->
  Z.of_nat (TableDimensions.headerRows d) <= r ->
  Z.of_nat (TableDimensions.headerColumns d) <= c ->
  (forall shown, getCell fmt values r c = Ok shown ->
     exists cell, getCell fmt q r c = Ok cell /\
                  TableCell.type cell = TableCellType.data /\
                  TableCell.content cell = TableCell.content shown) /\
  (forall e, getCell fmt values r c = Throw e ->
             getCell fmt q r c = Throw e).
Proof.
  intros Hst Hvalues Hd [Hr Hc] Hrow Hcol.
  destruct q as [idx cols dat sty]. simpl in Hst. subst sty.
  destruct st as [u cap sts dv]. simpl in Hvalues. subst dv.
  cbn [getCell]. rewrite Hd. simpl.
  split_tests; try lia.
  all: split; [intros shown -> | intros e ->]; [| done].
  all: eexists; split; [done |]; split; done.
Qed.

(** X13.  A cell returned inside the grid carries an identifier only
    when it is an index cell or a body cell and the frame has a
    non-empty [tableId]; the identifier is then the [tableId] followed
    by the level and body row of an index cell, or by the body row and
    body column of a body cell. *)
Theorem getCell_id (q : Quiver) (d : TableDimensions.t) (r c : Z)
    (cell : TableCell.t) :
  dimensions q = Ok d -> in_grid d r c ->
  getCell fmt q r c = Ok cell ->
  let bodyRow := string_of_Z (r - Z.of_nat (TableDimensions.headerRows d)) in
  let bodyColumn :=
    string_of_Z (c - Z.of_nat (TableDimensions.headerColumns d)) in
  TableCell.id cell =
    match TableCell.type cell with
    | TableCellType.blank | TableCellType.columns => None
    | TableCellType.index =>
        if truthy_string (tableId q)
        then Some (default "" (tableId q) +:+ "level" +:+ string_of_Z c
                   +:+ "_row" +:+ bodyRow)
        else None
    | TableCellType.data =>
        if truthy_string (tableId q)
        then Some (default "" (tableId q) +:+ "row" +:+ bodyRow
                   +:+ "_col" +:+ bodyColumn)
        else None
    end.
Proof.
  intros Hd [Hr Hc]. destruct q as [idx cols dat sty].
  cbn [getCell]. rewrite Hd. unfold tableId. simpl.
  split_tests; try lia; intros Hcell;
    destruct sty as [[[[|a u]|] cap sts dv]|]; simpl in *;
    repeat case_match; simplify_eq; done.
Qed.

End CellContent.

Lemma getCell_addresses_witness :
  let d := TableDimensions.mk 1 1 3 1 4 2 in
  let hr := Z.of_nat (TableDimensions.headerRows d) in
  let hc := Z.of_nat (TableDimensions.headerColumns d) in
  ((1 < TableDimensions.dataRows d)%nat ->
   (0 < TableDimensions.dataColumns d)%nat ->
   has_displayValues threeRows = false ->
   exists row cell,
     Data.data (data threeRows) !! 1%nat = Some row /\
     getCell plainFormat threeRows (hr + Z.of_nat 1) (hc + Z.of_nat 0)
       = Ok cell /\
     TableCell.content cell =
       VStr (plainFormat (default VUndefined (row !! 0%nat))
                         (Data.type (data threeRows) !! 0%nat))) /\
  (forall level t,
     (1 < TableDimensions.dataRows d)%nat ->
     Index.data (index threeRows) !! 0%nat = Some level ->
     Index.type (index threeRows) !! 0%nat = Some t ->
     exists cell,
       getCell plainFormat threeRows (hr + Z.of_nat 1) (Z.of_nat 0) = Ok cell /\
       TableCell.content cell =
         VStr (plainFormat (default VUndefined (level !! 1%nat)) (name t))) /\
  (forall labels,
     columns threeRows !! 1%nat = Some labels ->
     (0 < TableDimensions.dataColumns d)%nat ->
     exists cell,
       getCell plainFormat threeRows (Z.of_nat 1) (hc + Z.of_nat 0) = Ok cell /\
       TableCell.content cell = default VUndefined (labels !! 0%nat)).
Proof.
  apply (getCell_addresses plainFormat threeRows
           (TableDimensions.mk 1 1 3 1 4 2) 1 0).
  reflexivity.
Defined.

Lemma getCell_displayValues_witness :
  let q := mkQuiver (index oneCell) (columns oneCell) (data oneCell)
             (Some (mkStyler (Some "x") None None (Some twoRows))) in
  (forall shown, getCell plainFormat twoRows 1 1 = Ok shown ->
     exists cell, getCell plainFormat q 1 1 = Ok cell /\
                  TableCell.type cell = TableCellType.data /\
                  TableCell.content cell = TableCell.content shown) /\
  (forall e, getCell plainFormat twoRows 1 1 = Throw e ->
             getCell plainFormat q 1 1 = Throw e).
Proof.
  apply (getCell_displayValues plainFormat
           (mkQuiver (index oneCell) (columns oneCell) (data oneCell)
              (Some (mkStyler (Some "x") None None (Some twoRows))))
           twoRows (mkStyler (Some "x") None None (Some twoRows))
           (TableDimensions.mk 1 1 1 1 2 2) 1 1);
    try reflexivity; try (unfold in_grid; simpl; lia).
Defined.

Lemma getCell_id_witness :
  let q := mkQuiver (index oneCell) (columns oneCell) (data oneCell)
             (Some (mkStyler (Some "x") None None None)) in
  let cell :=
    TableCell.mk TableCellType.data (Some "T_xrow0_col0") "data row0 col0"
                 (VStr "1") in
  TableCell.id cell =
    match TableCell.type cell with
    | TableCellType.blank | TableCellType.columns => None
    | TableCellType.index =>
        if truthy_string (tableId q)
        then Some (default "" (tableId q) +:+ "level" +:+ string_of_Z 1
                   +:+ "_row" +:+ string_of_Z (1 - Z.of_nat 1))
        else None
    | TableCellType.data =>
        if truthy_string (tableId q)
        then Some (default "" (tableId q) +:+ "row"
                   +:+ string_of_Z (1 - Z.of_nat 1)
                   +:+ "_col" +:+ string_of_Z (1 - Z.of_nat 1))
        else None
    end.
Proof.
  apply (getCell_id plainFormat
           (mkQuiver (index oneCell) (columns oneCell) (data oneCell)
              (Some (mkStyler (Some "x") None None None)))
           (TableDimensions.mk 1 1 1 1 2 2) 1 1);
    try reflexivity; try (unfold in_grid; simpl; lia).
Defined.

(** ** The shape the sort works on *)

(** X14.  In a frame whose dimensions are computed,
    [tableRowsAndColumns] agrees with the body rows and body columns of
    [dimensions] as soon as the first body row has an entry; otherwise
    it reports no row and no column, also where [dimensions] reports
    body rows of no width or, for a body without rows, the columns of
    the labels. *)
Theorem tableRowsAndColumns_dimensions (q : Quiver) (d : TableDimensions.t) :
  dimensions q = Ok d ->
  (bodyColumns q <> 0%nat ->
   tableRowsAndColumns q
   = (TableDimensions.dataRows d, TableDimensions.dataColumns d)) /\
  (bodyColumns q = 0%nat -> tableRowsAndColumns q = (0, 0)%nat).
Proof.
  intros Hd.
  destruct (dimensions_Ok_inv q d Hd) as (_ & _ & Hdr & Hdc & _).
  unfold tableRowsAndColumns, bodyColumns, bodyRows in *.
  destruct (Data.data (data q)) as [|row0 rows]; simpl in *.
  - split; [done | done].
  - rewrite Hdr, Hdc. split.
    + intros Hne. by rewrite (proj2 (Nat.eqb_neq _ _) Hne).
    + intros ->. done.
Qed.

Lemma tableRowsAndColumns_dimensions_witness :
  (bodyColumns threeRows <> 0%nat ->
   tableRowsAndColumns threeRows
   = (TableDimensions.dataRows (TableDimensions.mk 1 1 3 1 4 2),
      TableDimensions.dataColumns (TableDimensions.mk 1 1 3 1 4 2))) /\
  (bodyColumns threeRows = 0%nat ->
   tableRowsAndColumns threeRows = (0, 0)%nat).
Proof.
  apply (tableRowsAndColumns_dimensions threeRows
           (TableDimensions.mk 1 1 3 1 4 2)).
  reflexivity.
Defined.

(** A frame with labels and no row has two grid columns and nothing to
    sort by. *)
Example tableRowsAndColumns_labelledNoRows :
  dimensions labelledNoRows = Ok (TableDimensions.mk 1 1 0 1 1 2) /\
  tableRowsAndColumns labelledNoRows = (0, 0)%nat.
Proof. split; reflexivity. Qed.

(** ** What the parser builds *)

Lemma mapM_length {A B} (f : A -> result B) :
  forall (l : list A) (r : list B), mapM f l = Ok r -> length r = length l.
Proof.
  induction l as [|x l IH]; intros r; simpl.
  - by intros [= <-].
  - destruct (f x) as [y|e]; simpl; [| done].
    destruct (mapM f l) as [ys|e] eqn:Hys; simpl; [| done].
    intros [= <-]. simpl. f_equal. by apply IH.
Qed.

Lemma mapM_pure {A B} (g : A -> B) (l : list A) :
  mapM (fun x => Ok (g x)) l = Ok (map g l).
Proof.
  induction l as [|x l IH]; simpl; [done |]. by rewrite IH.
Qed.

Lemma unzip_singletons (names : list string) :
  unzip (map (fun fieldName => [VStr fieldName]) names) =
    match names with
    | [] => []
    | _ => [map VStr names]
    end.
Proof.
  unfold unzip.
  assert (foldr (fun g n => Nat.max (length g) n) 0%nat
                (map (fun fieldName => [VStr fieldName]) names)
          = match names with [] => 0%nat | _ => 1%nat end) as ->.
  { induction names as [|x names IH]; simpl; [done |].
    rewrite IH. by destruct names. }
  destruct names as [|x names]; [done |].
  cbn [seq map]. f_equal. rewrite map_map. simpl. f_equal.
Qed.

Section ParsedFrames.

Variable Table_from : option Uint8Array -> result Table.
Variable JSON_parse_schema : string -> option Schema.
Variable JSON_parse_label : string -> option (list Value).

Lemma getData_shape (table : Table) (columns : Columns) :
  length (getData table columns) = table_length table /\
  Forall (fun row => length row = match columns with
                                  | [] => 0%nat
                                  | labels0 :: _ => length labels0
                                  end)
         (getData table columns).
Proof.
  unfold getData. split.
  - by rewrite length_map, length_seq.
  - apply Forall_map, Forall_forall. intros rowIndex _. simpl.
    by rewrite length_map, length_seq.
Qed.

Lemma parseTable_Ok_inv (element : option IArrow) (table : Table)
    (df : DataFrame) :
  Table_from (element ≫= arrow_data) = Ok table ->
  parseTable Table_from JSON_parse_schema JSON_parse_label element = Ok df ->
  exists schema columns indexData,
    getIndex table schema = Ok indexData /\
    df = mkQuiver (Index.mk indexData (getIndexType schema)) columns
                  (Data.mk (getData table columns)
                           (getDataColumnType table schema))
                  (styler df) /\
    (element ≫= arrow_styler = None -> styler df = None).
Proof.
  intros Htable. unfold parseTable, parseTableWith at 1.
  rewrite Htable. simpl.
  destruct (getSchema JSON_parse_schema table) as [schema|e]; simpl; [| done].
  destruct (getColumns JSON_parse_label schema) as [columns|e]; simpl;
    [| done].
  destruct (getIndex table schema) as [indexData|e] eqn:Hindex; simpl;
    [| done].
  destruct (element ≫= arrow_styler) as [tableStyler|]; simpl.
  - destruct (parseTableWith _ _ _ _ _) as [values|e]; simpl; [| done].
    intros [= <-]. by exists schema, columns, indexData.
  - intros [= <-]. by exists schema, columns, indexData.
Qed.

(** X15.  Every frame [parseTable] returns has one type per index
    level, as many body rows as the table has rows, and body rows that
    all have as many entries as the first label level has labels; and
    its list of data types is empty when the table has no row. *)
Theorem parseTable_shape (element : option IArrow) (table : Table)
    (df : DataFrame) :
  Table_from (element ≫= arrow_data) = Ok table ->
  parseTable Table_from JSON_parse_schema JSON_parse_label element = Ok df ->
  length (Index.data (index df)) = length (Index.type (index df)) /\
  bodyRows df = table_length table /\
  Forall (fun row => length row = labelColumns df) (Data.data (data df)) /\
  (table_length table = 0%nat -> Data.type (data df) = []).
Proof.
  intros Htable Hdf.
  destruct (parseTable_Ok_inv element table df Htable Hdf)
    as (schema & columns & indexData & Hindex & -> & _).
  destruct (getData_shape table columns) as [Hrows Hwidth].
  unfold bodyRows, labelColumns. simpl. split; [| split; [done |]].
  - unfold getIndex in Hindex. apply mapM_length in Hindex.
    unfold getIndexType. by rewrite length_map.
  - split; [done |]. intros Hzero. unfold getDataColumnType.
    by rewrite Hzero.
Qed.

(** X16.  A frame parsed from a payload without styler has no
    dimensions exactly when the table has rows and their number is not
    the number of entries of the first index level (none, without an
    index level); when it has dimensions, [getCell] returns a cell at
    every position of its grid. *)
Theorem parseTable_renderable (element : option IArrow) (table : Table)
    (df : DataFrame) :
  Table_from (element ≫= arrow_data) = Ok table ->
  element ≫= arrow_styler = None ->
  parseTable Table_from JSON_parse_schema JSON_parse_label element = Ok df ->
  (fails_with (dimensions df) DimensionMismatch <->
   table_length table <> 0%nat /\ table_length table <> indexRows df) /\
  (forall (fmt : Value -> option string -> string) d r c,
     dimensions df = Ok d -> in_grid d r c ->
     exists cell, getCell fmt df r c = Ok cell).
Proof.
  intros Htable Hplain Hdf.
  destruct (parseTable_Ok_inv element table df Htable Hdf)
    as (schema & columns & indexData & Hindex & Heq & Hstyler).
  specialize (Hstyler Hplain).
  destruct (getData_shape table columns) as [Hrows Hwidth].
  split.
  - rewrite dimensions_throws_iff. rewrite Heq.
    unfold bodyRows, bodyColumns, labelColumns, indexRows. simpl.
    rewrite Hrows. split; [| tauto].
    intros [Hne [Hrow | [Hzero Hcol]]]; [tauto |]. exfalso.
    destruct (getData table columns) as [|row0 rows]; [done |].
    apply Forall_cons in Hwidth as [Hrow0 _]. done.
  - intros fmt d r c Hd Hgrid. apply (getCell_returns fmt df d r c Hd Hgrid).
    + intros _. rewrite Heq. simpl.
      unfold getIndex in Hindex. apply mapM_length in Hindex.
      unfold getIndexType. rewrite length_map. lia.
    + intros _. unfold has_displayValues. by rewrite Hstyler.
Qed.

(** X17.  With a column index of a single level and a table of at least
    one row, the frame [parseTable] returns has one label level holding
    the field names of the schema's non-index columns in schema order
    (no level when there is none), their type tags as its data types,
    and body rows with exactly one entry per data type. *)
Theorem parseTable_flat_columns (element : option IArrow) (table : Table)
    (text : string) (schema : Schema) (df : DataFrame) :
  Table_from (element ≫= arrow_data) = Ok table ->
  schema_metadata table !! "pandas" = Some text ->
  JSON_parse_schema text = Some schema ->
  (length (column_indexes schema) <= 1)%nat ->
  (0 < table_length table)%nat ->
  parseTable Table_from JSON_parse_schema JSON_parse_label element = Ok df ->
  let dataColumns :=
    filter (fun column =>
              index_columns_includes schema (SchemaColumn.field_name column)
              = false) (schema_columns schema) in
  columns df = match dataColumns with
               | [] => []
               | _ => [map (fun column => VStr (SchemaColumn.field_name column))
                           dataColumns]
               end /\
  Data.type (data df) = map SchemaColumn.pandas_type dataColumns /\
  Forall (fun row => length row = length (Data.type (data df)))
         (Data.data (data df)).
Proof.
  intros Htable Htext Hschema Hflat Hrows. unfold parseTable, parseTableWith at 1.
  rewrite Htable. simpl. unfold getSchema. rewrite Htext, Hschema. simpl.
  unfold getColumns.
  replace (1 <? length (column_indexes schema))%nat with false
    by (symmetry; apply Nat.ltb_ge; lia).
  rewrite (mapM_pure (fun fieldName => [VStr fieldName])). simpl.
  rewrite unzip_singletons.
  assert (filter (fun fieldName => index_columns_includes schema fieldName = false)
                 (map SchemaColumn.field_name (schema_columns schema))
          = map SchemaColumn.field_name
                (filter (fun column =>
                           index_columns_includes schema
                             (SchemaColumn.field_name column) = false)
                        (schema_columns schema))) as ->.
  { induction (schema_columns schema) as [|column l IH]; [done |].
    simpl. rewrite !filter_cons. simpl.
    destruct (decide _); simpl; by rewrite IH. }
  set (dataColumns := filter _ (schema_columns schema)).
  destruct (getIndex table schema) as [indexData|e]; simpl; [| done].
  assert (getDataColumnType table schema
          = map SchemaColumn.pandas_type dataColumns) as Htypes.
  { unfold getDataColumnType.
    by rewrite (proj2 (Nat.ltb_lt 0 (table_length table)) Hrows). }
  intros Hdf.
  assert (df = mkQuiver
                 (Index.mk indexData (getIndexType schema))
                 (match map SchemaColumn.field_name dataColumns with
                  | [] => []
                  | _ => [map VStr (map SchemaColumn.field_name dataColumns)]
                  end)
                 (Data.mk
                    (getData table
                       (match map SchemaColumn.field_name dataColumns with
                        | [] => []
                        | _ => [map VStr (map SchemaColumn.field_name
                                               dataColumns)]
                        end))
                    (getDataColumnType table schema))
                 (styler df)) as ->.
  { destruct (element ≫= arrow_styler) as [tableStyler|]; simpl in Hdf.
    - destruct (parseTableWith _ _ _ _ _) as [values|e]; simpl in Hdf;
        [| done].
      by injection Hdf as <-.
    - by injection Hdf as <-. }
  simpl. rewrite Htypes. split; [| split; [done |]].
  - destruct dataColumns; [done |]. simpl. by rewrite map_map.
  - destruct (getData_shape table
                (match map SchemaColumn.field_name dataColumns with
                 | [] => []
                 | _ => [map VStr (map SchemaColumn.field_name dataColumns)]
                 end)) as [_ Hwidth].
    eapply Forall_impl; [exact Hwidth |]. intros row ->.
    destruct dataColumns; [done |]. simpl. by rewrite !length_map.
Qed.

Lemma parseTableWith_no_styler nested nested' (element : option IArrow) :
  element ≫= arrow_styler = None ->
  parseTableWith Table_from JSON_parse_schema JSON_parse_label nested element
  = parseTableWith Table_from JSON_parse_schema JSON_parse_label nested'
                   element.
Proof. intros H. unfold parseTableWith. by rewrite H. Qed.

(** X18.  A payload with a styler parses as the same payload without
    one, with the styler's identifier, caption and styles and the
    parsed display values attached; it fails as the payload's own parse
    fails, and otherwise as the parse of the display values fails,
    whose error its [catch] words once more. *)
Theorem parseTable_styler (payload : option Uint8Array) (tableStyler : IStyler) :
  let parse := parseTable Table_from JSON_parse_schema JSON_parse_label in
  parse (Some (mkIArrow payload (Some tableStyler))) =
    match parse (Some (mkIArrow payload None)) with
    | Throw e => Throw e
    | Ok plain =>
        match parse (Some (mkIArrow (styler_displayValues tableStyler) None))
        with
        | Throw e => Throw (Error (MsgStringOf (err_name e) (err_message e)))
        | Ok values =>
            Ok (mkQuiver (index plain) (columns plain) (data plain)
                  (Some (mkStyler (styler_uuid tableStyler)
                                  (styler_caption tableStyler)
                                  (styler_styles tableStyler)
                                  (Some values))))
        end
    end.
Proof.
  cbv zeta. unfold parseTable.
  rewrite (parseTableWith_no_styler
             (parseTableWith Table_from JSON_parse_schema JSON_parse_label
                             (fun _ => Throw typeError))
             (fun _ => Throw typeError)
             (Some (mkIArrow (styler_displayValues tableStyler) None)))
    by done.
  unfold parseTableWith at 1 3. simpl.
  destruct (Table_from payload) as [table|e]; simpl; [| done].
  destruct (getSchema JSON_parse_schema table) as [schema|e]; simpl; [| done].
  destruct (getColumns JSON_parse_label schema) as [columns|e]; simpl;
    [| done].
  destruct (getIndex table schema) as [indexData|e]; simpl; [| done].
  destruct (parseTableWith _ _ _ _ _) as [values|e]; simpl; [| done].
  by destruct values.
Qed.

End ParsedFrames.

Lemma parseTable_shape_witness :
  length (Index.data (index twoRows)) = length (Index.type (index twoRows)) /\
  bodyRows twoRows = table_length twoRowTable /\
  Forall (fun row => length row = labelColumns twoRows)
         (Data.data (data twoRows)) /\
  (table_length twoRowTable = 0%nat -> Data.type (data twoRows) = []).
Proof.
  apply (parseTable_shape (fun _ => Ok twoRowTable) readSchema
           (fun _ => None) (Some (mkIArrow None None)) twoRowTable twoRows).
  - reflexivity.
  - vm_compute. reflexivity.
Defined.

Lemma parseTable_renderable_witness :
  (fails_with (dimensions twoRows) DimensionMismatch <->
   table_length twoRowTable <> 0%nat
   /\ table_length twoRowTable <> indexRows twoRows) /\
  (forall (fmt : Value -> option string -> string) d r c,
     dimensions twoRows = Ok d -> in_grid d r c ->
     exists cell, getCell fmt twoRows r c = Ok cell).
Proof.
  apply (parseTable_renderable (fun _ => Ok twoRowTable) readSchema
           (fun _ => None) (Some (mkIArrow None None)) twoRowTable twoRows).
  - reflexivity.
  - reflexivity.
  - vm_compute. reflexivity.
Defined.

Lemma parseTable_flat_columns_witness :
  let dataColumns :=
    filter (fun column =>
              index_columns_includes twoRowSchema
                (SchemaColumn.field_name column) = false)
           (schema_columns twoRowSchema) in
  columns twoRows = match dataColumns with
                    | [] => []
                    | _ => [map (fun column =>
                                   VStr (SchemaColumn.field_name column))
                                dataColumns]
                    end /\
  Data.type (data twoRows) = map SchemaColumn.pandas_type dataColumns /\
  Forall (fun row => length row = length (Data.type (data twoRows)))
         (Data.data (data twoRows)).
Proof.
  apply (parseTable_flat_columns (fun _ => Ok twoRowTable) readSchema
           (fun _ => None) (Some (mkIArrow None None)) twoRowTable
           "schema of two rows" twoRowSchema twoRows).
  - reflexivity.
  - reflexivity.
  - reflexivity.
  - simpl. lia.
  - simpl. lia.
  - vm_compute. reflexivity.
Defined.

(** The two-row payload with a styler whose display values are the same
    payload. *)
Example parseTable_styled :
  parseTable (fun _ => Ok twoRowTable) readSchema (fun _ => None)
             (Some (mkIArrow None (Some (mkIStyler (Some "x") None None None))))
  = Ok (mkQuiver (index twoRows) (columns twoRows) (data twoRows)
          (Some (mkStyler (Some "x") None None (Some twoRows)))).
Proof. vm_compute. reflexivity. Qed.

(** ** Concatenation never rewrites the base *)

Lemma rangeStep_fold_prefix (second : list Value) :
  forall (d : list Value) (v : Value) (m : JsObject),
    d `prefix_of` fst (fst (fold_left rangeStep second (d, v, m))).
Proof.
  induction second as [|x second IH]; intros d v m; simpl; [done |].
  etrans; [| apply IH]. by apply prefix_app_r.
Qed.

Lemma concatIndex_prefix (firstIndex : list Value)
    (secondIndex : option (list Value)) (indexType : option IndexType)
    (c : IndexData.t) :
  concatIndex firstIndex secondIndex indexType = Ok c ->
  firstIndex `prefix_of` IndexData.data c /\
  exists t, indexType = Some t /\ name (IndexData.type c) = name t.
Proof.
  unfold concatIndex, concatRangeIndex, concatAnyIndex.
  destruct indexType as [t|]; [| done].
  destruct (bool_decide (name t = Some RangeIndexName)).
  - destruct (meta t) as [m|]; [| done].
    destruct secondIndex as [second|]; [| done].
    pose proof (rangeStep_fold_prefix second firstIndex (field m "stop") m)
      as Hprefix.
    destruct (fold_left rangeStep second _) as [[d v] m']. simpl in Hprefix.
    intros [= <-]. simpl. split; [done | by exists t].
  - destruct (bool_decide (name t = Some CategoricalIndexName)).
    + destruct (meta t); [| done]. destruct secondIndex; [| done].
      intros [= <-]. simpl. split; [by apply prefix_app_r | by exists t].
    + intros [= <-]. simpl. split; [by apply prefix_app_r | by exists t].
Qed.

(** X19.  When the base is a non-styled frame whose first index level
    has entries, a frame returned by [concatTables] keeps the base's
    column labels and data types, starts with the base's body rows, has
    as many index levels as the base, starts each level with the base's
    entries of that level, and names its index types as the base does:
    nothing of the base is dropped, reordered or renamed. *)
Theorem concatTables_keeps_base (df1 df2 q : Quiver) (level0 : list Value) :
  styler df1 = None -> styler df2 = None ->
  Index.data (index df1) !! 0%nat = Some level0 -> level0 <> [] ->
  concatTables df1 df2 = Ok q ->
  columns q = columns df1 /\
  Data.type (data q) = Data.type (data df1) /\
  Data.data (data df1) `prefix_of` Data.data (data q) /\
  length (Index.data (index q)) = length (Index.data (index df1)) /\
  (forall k level, Index.data (index df1) !! k = Some level ->
     exists level', Index.data (index q) !! k = Some level'
                    /\ level `prefix_of` level') /\
  map name (Index.type (index q))
    `prefix_of` map name (Index.type (index df1)).
Proof.
  intros Hs1 Hs2 Hlevel0 Hne.
  rewrite concatTables_unstyled by done.
  rewrite (isEmptyDf_level0 df1 level0 Hlevel0).
  replace (length level0 =? 0)%nat with false by (by destruct level0).
  rewrite andb_false_r. simpl.
  destruct (isEmptyDf df2) as [[|]|e]; simpl; [| | done].
  - intros [= <-]. repeat split; try done.
    intros k level Hk. by exists level.
  - destruct (concatIndices (index df1) (index df2)) as [merged|e] eqn:Hidx;
      simpl; [| done].
    unfold concatData. destruct (sameDataColumnTypes _ _); simpl; [| done].
    intros [= <-]. simpl.
    destruct (concatIndices_Ok_inv _ _ _ _ Hlevel0 Hne Hidx)
      as (_ & cs & Hlen & Hall & ->). simpl.
    split; [done |]. split; [done |]. split; [by apply prefix_app_r |].
    split; [by rewrite length_map |]. split.
    + intros k level Hk. destruct (Hall k level Hk) as (c & Hc & Hmerge).
      exists (IndexData.data c). split.
      * change (map IndexData.data cs) with (IndexData.data <$> cs).
        by rewrite list_lookup_fmap, Hc.
      * by apply concatIndex_prefix in Hmerge as [? _].
    + exists (drop (length cs) (map name (Index.type (index df1)))).
      apply list_eq. intros k.
      destruct (decide (k < length cs)%nat) as [Hlt|Hge].
      * rewrite lookup_app_l by (by rewrite !length_map).
        destruct (lookup_lt_is_Some_2 (Index.data (index df1)) k)
          as [level Hk]; [lia |].
        destruct (Hall k level Hk) as (c & Hc & Hmerge).
        apply concatIndex_prefix in Hmerge as (_ & t & Ht & Hname).
        change (map name ?l) with (name <$> l).
        change (map IndexData.type ?l) with (IndexData.type <$> l).
        rewrite !list_lookup_fmap, Hc, Ht. simpl. by rewrite Hname.
      * rewrite lookup_app_r by (rewrite !length_map; lia).
        rewrite lookup_drop, !length_map. f_equal. lia.
Qed.

Lemma concatTables_keeps_base_witness :
  let q := rangeFrame 0 1 5 [0; 1; 2; 3; 4] ["a"]
             [[VNum 10]; [VNum 11]; [VNum 12]; [VNum 20]; [VNum 21]]
             ["int64"] in
  columns q = columns threeRows /\
  Data.type (data q) = Data.type (data threeRows) /\
  Data.data (data threeRows) `prefix_of` Data.data (data q) /\
  length (Index.data (index q)) = length (Index.data (index threeRows)) /\
  (forall k level, Index.data (index threeRows) !! k = Some level ->
     exists level', Index.data (index q) !! k = Some level'
                    /\ level `prefix_of` level') /\
  map name (Index.type (index q))
    `prefix_of` map name (Index.type (index threeRows)).
Proof.
  apply (concatTables_keeps_base threeRows twoRows _ (map VNum [0; 1; 2]));
    try reflexivity; try discriminate.
Defined.

(** ** The index the parser reads *)

Lemma getColumnData_values (column : list Value) :
  getColumnData (Some column) = Ok column.
Proof.
  unfold getColumnData. f_equal. apply list_eq. intros i.
  change (map ?f ?l) with (f <$> l). rewrite list_lookup_fmap.
  destruct (decide (i < length column)%nat) as [Hlt|Hge].
  - rewrite lookup_seq_lt by done. simpl. unfold column_get.
    destruct (lookup_lt_is_Some_2 column i Hlt) as [v Hv]. by rewrite Hv.
  - rewrite lookup_seq_ge by lia. simpl.
    symmetry. apply lookup_ge_None. lia.
Qed.

Lemma mapM_Forall2 {A B} (f : A -> result B) (l : list A) (r : list B) :
  mapM f l = Ok r <-> Forall2 (fun x y => f x = Ok y) l r.
Proof.
  revert r. induction l as [|x l IH]; intros r; simpl.
  - split; [intros [= <-]; constructor | by inversion 1].
  - split.
    + destruct (f x) as [y|e] eqn:Hx; simpl; [| done].
      destruct (mapM f l) as [ys|e] eqn:Hys; simpl; [| done].
      intros [= <-]. constructor; [done |]. by apply IH.
    + inversion 1 as [|? y ? ys Hx Hrest]; subst. rewrite Hx. simpl.
      apply IH in Hrest. by rewrite Hrest.
Qed.

(** X20.  [getIndex] returns exactly when every referenced index column
    exists in the table, and then gives one level per entry of
    [index_columns], in order: for a range descriptor the values lodash
    [range] generates from its start, stop and step, for a column
    reference the values of the table's column of that name as they
    are. *)
Theorem getIndex_levels (table : Table) (schema : Schema)
    (levels : list (list Value)) :
  getIndex table schema = Ok levels <->
  Forall2 (fun indexColumn level =>
             match indexColumn with
             | RangeRef r =>
                 level = map VNum (range (RangeIndex.start r)
                                         (RangeIndex.stop r)
                                         (RangeIndex.step r))
             | ColumnRef fieldName => getColumn table fieldName = Some level
             end) (index_columns schema) levels.
Proof.
  unfold getIndex. rewrite mapM_Forall2.
  split; intros H; (eapply Forall2_impl; [exact H |]);
    intros [fieldName|r] level; simpl.
  - destruct (getColumn table fieldName) as [column|]; [| done].
    rewrite getColumnData_values. congruence.
  - congruence.
  - intros ->. by rewrite getColumnData_values.
  - congruence.
Qed.

(** X21.  For a positive step, the values lodash [range] generates, and
    so the entries of a parsed range level, are exactly the numbers
    [start + i * step] from [start] on that are below [stop]. *)
Theorem range_values (start stop step v : Z) :
  0 < step ->
  v ∈ range start stop step <->
  start <= v < stop /\ (v - start) mod step = 0.
Proof.
  intros Hstep. unfold range.
  replace (if step =? 0 then 1 else step) with step
    by (destruct (Z.eqb_spec step 0); [lia | reflexivity]).
  set (n := Z.max (- (- (stop - start) / step)) 0).
  assert (forall i : Z, 0 <= i -> (i < n <-> start + i * step < stop)) as Hn.
  { intros i Hi. subst n.
    pose proof (Z.div_mod (- (stop - start)) step ltac:(lia)) as Hdm.
    pose proof (Z.mod_pos_bound (- (stop - start)) step Hstep) as Hb.
    split; intros H; nia. }
  rewrite list_elem_of_In, in_map_iff. split.
  - intros (i & <- & Hi). apply in_seq in Hi.
    split; [split; [nia |] |].
    + apply Hn; lia.
    + replace (start + Z.of_nat i * step - start) with (Z.of_nat i * step)
        by lia.
      apply Z.mod_mul. lia.
  - intros [[Hlo Hhi] Hmod].
    apply Z.mod_divide in Hmod as [i Hi]; [| lia].
    assert (0 <= i) by nia.
    exists (Z.to_nat i). split; [lia |].
    apply in_seq. split; [lia |]. simpl.
    assert (i < n) by (apply Hn; [done | lia]). lia.
Qed.

Lemma range_values_witness :
  4 ∈ range 0 5 2 <-> 0 <= 4 < 5 /\ (4 - 0) mod 2 = 0.
Proof. apply (range_values 0 5 2 4). lia. Defined.

(** ** The ways [concatTables] fails *)

Lemma concatTables_throws_unstyled (df1 df2 : Quiver) (e : JsError) :
  styler df1 = None -> styler df2 = None ->
  concatTables df1 df2 = Throw e ->
  IndexTypeMismatch e \/ DataTypeMismatch e \/ RuntimeTypeError e.
Proof.
  intros Hs1 Hs2. rewrite concatTables_unstyled by done.
  destruct (isEmptyDf df1) as [[|]|e1] eqn:He1; simpl; [done | |].
  2: { intros [= <-]. apply isEmptyDf_throws in He1 as ->.
       right. right. by left. }
  destruct (isEmptyDf df2) as [[|]|e2] eqn:He2; simpl; [done | |].
  2: { intros [= <-]. apply isEmptyDf_throws in He2 as ->.
       right. right. by left. }
  destruct (concatIndices (index df1) (index df2)) as [merged|e'] eqn:Hidx;
    simpl.
  - unfold concatData. destruct (sameDataColumnTypes _ _); simpl; [done |].
    intros [= <-]. right. left. by eexists _, _.
  - intros [= <-].
    destruct (concatIndices_throws _ _ _ Hidx) as [-> | (t1 & t2 & ->)].
    + right. right. by right.
    + left. by eexists _, _.
Qed.

(** X22.  [concatTables] fails with [StyledConcatUnsupported] exactly
    when one of the two frames carries a styling, whatever else the
    frames hold; and whenever it fails, it fails with that error, with
    [IndexTypeMismatch], with [DataTypeMismatch], or with the engine's
    error on a read from [undefined]. *)
Theorem concatTables_failures (df1 df2 : Quiver) :
  (fails_with (concatTables df1 df2) StyledConcatUnsupported <->
   styler df1 <> None \/ styler df2 <> None) /\
  (forall e, concatTables df1 df2 = Throw e ->
     StyledConcatUnsupported e \/ IndexTypeMismatch e
     \/ DataTypeMismatch e \/ RuntimeTypeError e).
Proof.
  destruct (styler df1) as [st1|] eqn:Hs1.
  { unfold concatTables. rewrite Hs1. simpl. split.
    - split; [intros _; by left |]. intros _. by eexists.
    - intros e [= <-]. by left. }
  destruct (styler df2) as [st2|] eqn:Hs2.
  { unfold concatTables. rewrite Hs1, Hs2. simpl. split.
    - split; [intros _; by right |]. intros _. by eexists.
    - intros e [= <-]. by left. }
  split.
  - split; [| intros [? | ?]; done].
    intros (e & He & ->).
    destruct (concatTables_throws_unstyled df1 df2 _ Hs1 Hs2 He)
      as [(? & ? & H) | [(? & ? & H) | [H | H]]]; discriminate H.
  - intros e He. right.
    exact (concatTables_throws_unstyled df1 df2 e Hs1 Hs2 He).
Qed.
